(** * Infrastructure climate analytics: the ETL pipeline of
    [src/etl/run_etl_pipeline.py], class [InfrastructureETL].

    The SQL run by the pipeline through DuckDB is embedded with SQL's
    semantics: a nullable DOUBLE column is an [option Q] ([None] is NULL),
    arithmetic on NULL yields NULL, aggregates skip NULLs, window functions
    work on a sorted partition.  The Python driver ([extract], [transform],
    [load], [create_analytics_views], [run_quality_checks], [close],
    [run_pipeline]) is a state and exception monad over a [World] holding the
    DuckDB catalog, the connection and the output directory. *)

From Stdlib Require Import String Ascii.
From Stdlib Require Import List Bool Arith Lia ZArith QArith Qfield Qminmax.
From Stdlib Require Import Permutation Sorting.Sorted.
From Stdlib Require Import Lqa.
Import ListNotations.
Open Scope list_scope.

(* ------------------------------------------------------------------ *)
(** ** Rows *)

(** [raw_infrastructure]: one row of [infrastructure_resilience_scores.csv]. *)
Record RawRow := mkRaw {
  country : string;
  year : Z;
  infrastructure_score : option Q;
  transport_resilience : option Q;
  energy_resilience : option Q;
  water_resilience : option Q;
  digital_resilience : option Q
}.

(** [clean_infrastructure]: the raw columns plus the three computed ones. *)
Record CleanRow := mkClean {
  base : RawRow;
  avg_resilience : option Q;
  score_change : option Q;
  yearly_rank : nat
}.

(** SQL arithmetic on nullable DOUBLEs. *)
Definition sql_bin (f : Q -> Q -> Q) (a b : option Q) : option Q :=
  match a, b with Some x, Some y => Some (f x y) | _, _ => None end.
Definition sql_add := sql_bin Qplus.
Definition sql_sub := sql_bin Qminus.
Definition sql_div := sql_bin Qdiv.

(** The non-NULL values of a column, as aggregates see them. *)
Fixpoint somes (l : list (option Q)) : list Q :=
  match l with
  | [] => []
  | Some x :: t => x :: somes t
  | None :: t => somes t
  end.

Fixpoint sumQ (l : list Q) : Q :=
  match l with [] => 0 | x :: t => x + sumQ t end.

(* ------------------------------------------------------------------ *)
(** ** Sorting, as the engine orders a partition or a result *)

(** Stable insertion sort: [le x y] says [x] may come before [y]. *)
Fixpoint insert_by {A} (le : A -> A -> bool) (x : A) (l : list A) : list A :=
  match l with
  | [] => [x]
  | y :: t => if le x y then x :: y :: t else y :: insert_by le x t
  end.

Definition sort_by {A} (le : A -> A -> bool) (l : list A) : list A :=
  fold_right (insert_by le) [] l.

(** Rows of the filtered relation tagged with their position, so that a
    window function can find the current row in its sorted partition. *)
Fixpoint index_from {A} (k : nat) (l : list A) : list (nat * A) :=
  match l with [] => [] | x :: t => (k, x) :: index_from (S k) t end.

Definition indexed {A} (l : list A) : list (nat * A) := index_from 0 l.

(** [ORDER BY year] inside a [PARTITION BY country]. *)
Definition year_le (a b : nat * RawRow) : bool := (year (snd a) <=? year (snd b))%Z.

(** [ORDER BY infrastructure_score DESC]; DuckDB puts NULLs last. *)
Definition score_desc_le (a b : option Q) : bool :=
  match a, b with
  | Some x, Some y => Qle_bool y x
  | Some _, None => true
  | None, Some _ => false
  | None, None => true
  end.

(** Peers of RANK(): rows whose ORDER BY key is equal. *)
Definition score_peer (a b : option Q) : bool :=
  match a, b with
  | Some x, Some y => Qeq_bool x y
  | None, None => true
  | _, _ => false
  end.

(** [ORDER BY country, year] of the final [clean_infrastructure]. *)
Definition country_year_le (a b : CleanRow) : bool :=
  match String.compare (country (base a)) (country (base b)) with
  | Lt => true
  | Gt => false
  | Eq => (year (base a) <=? year (base b))%Z
  end.

(* ------------------------------------------------------------------ *)
(** ** [transform]: clean_infrastructure *)

(** LAG(., 1): the row before row [i] in its sorted partition. *)
Fixpoint lag_in (prev : option RawRow) (part : list (nat * RawRow)) (i : nat)
  : option RawRow :=
  match part with
  | [] => None
  | (j, r) :: t => if j =? i then prev else lag_in (Some r) t i
  end.

(** [infrastructure_score - LAG(infrastructure_score, 1)
     OVER (PARTITION BY country ORDER BY year)] *)
Definition score_change_at (ix : list (nat * RawRow)) (i : nat) (r : RawRow)
  : option Q :=
  let part := sort_by year_le
                (filter (fun p => String.eqb (country (snd p)) (country r)) ix) in
  match lag_in None part i with
  | Some p => sql_sub (infrastructure_score r) (infrastructure_score p)
  | None => None
  end.

(** The position (from 0) of the first row satisfying [peer]. *)
Fixpoint first_peer_pos {A} (peer : A -> bool) (l : list A) : nat :=
  match l with
  | [] => 0
  | x :: t => if peer x then 0 else S (first_peer_pos peer t)
  end.

(** [RANK() OVER (PARTITION BY year ORDER BY infrastructure_score DESC)]:
    the row number of the first peer of the current row in the sorted
    partition. *)
Definition rank_at (ix : list (nat * RawRow)) (r : RawRow) : nat :=
  let part := sort_by (fun a b => score_desc_le (infrastructure_score (snd a))
                                                (infrastructure_score (snd b)))
                (filter (fun p => (year (snd p) =? year r)%Z) ix) in
  S (first_peer_pos (fun p => score_peer (infrastructure_score (snd p))
                                         (infrastructure_score r)) part).

(** The (country, year) key of a row. *)
Definition raw_key (r : RawRow) : string * Z := (country r, year r).

(** [WHERE year >= 2010] *)
Definition year_filter (raw : list RawRow) : list RawRow :=
  filter (fun r => (2010 <=? year r)%Z) raw.

Definition clean_row (ix : list (nat * RawRow)) (p : nat * RawRow) : CleanRow :=
  let (i, r) := p in
  {| base := r;
     avg_resilience :=
       sql_div (sql_add (sql_add (sql_add (transport_resilience r)
                                          (energy_resilience r))
                                 (water_resilience r))
                        (digital_resilience r)) (Some 4);
     score_change := score_change_at ix i r;
     yearly_rank := rank_at ix r |}.

(** [CREATE OR REPLACE TABLE clean_infrastructure AS SELECT ...
     FROM raw_infrastructure WHERE year >= 2010 ORDER BY country, year] *)
Definition clean_infrastructure (raw : list RawRow) : list CleanRow :=
  let ix := indexed (year_filter raw) in
  sort_by country_year_le (map (clean_row ix) ix).

(* ------------------------------------------------------------------ *)
(** ** Aggregates *)

(** [AVG]: NULL over no non-NULL value. *)
Definition sql_avg (l : list (option Q)) : option Q :=
  match somes l with
  | [] => None
  | xs => Some (sumQ xs / inject_Z (Z.of_nat (List.length xs)))
  end.

Definition sql_min (l : list (option Q)) : option Q :=
  match somes l with [] => None | x :: t => Some (fold_left Qmin t x) end.

Definition sql_max (l : list (option Q)) : option Q :=
  match somes l with [] => None | x :: t => Some (fold_left Qmax t x) end.

(** DuckDB's [STDDEV] (= [STDDEV_SAMP]) keeps a running count, mean and sum
    of squared distances to the mean (Welford's update); it is NULL when at
    most one non-NULL value was aggregated. *)
Record StdDevState := { sd_count : nat; sd_mean : Q; sd_dsquared : Q }.

Definition stddev_update (st : StdDevState) (x : Q) : StdDevState :=
  let n := S (sd_count st) in
  let mean_differential := (x - sd_mean st) / inject_Z (Z.of_nat n) in
  let new_mean := sd_mean st + mean_differential in
  let dsquared_increment := (x - new_mean) * (x - sd_mean st) in
  {| sd_count := n; sd_mean := new_mean;
     sd_dsquared := sd_dsquared st + dsquared_increment |}.

(** The engine's square root of a DOUBLE, computed here to 10^-6 (floating
    point rounding is not modelled; only whether the result is NULL and its
    radicand matter below). *)
Definition Qsqrt (q : Q) : Q :=
  let q' := Qred q in
  Z.sqrt (Qnum q' * Zpos (Qden q') * 10 ^ 12) # (Qden q' * 10 ^ 6).

Definition stddev_finalize (st : StdDevState) : option Q :=
  if sd_count st <=? 1 then None
  else Some (Qsqrt (sd_dsquared st / inject_Z (Z.of_nat (sd_count st - 1)))).

Definition sql_stddev (l : list (option Q)) : option Q :=
  stddev_finalize
    (fold_left stddev_update (somes l)
       {| sd_count := 0; sd_mean := 0; sd_dsquared := 0 |}).

(** [COUNT(DISTINCT .)] on strings. *)
Definition count_distinct (l : list string) : nat :=
  List.length (nodup string_dec l).

Definition zmin_list (x : Z) (l : list Z) : Z := fold_left Z.min l x.
Definition zmax_list (x : Z) (l : list Z) : Z := fold_left Z.max l x.

(* ------------------------------------------------------------------ *)
(** ** [transform]: country_summary *)

Record SummaryRow := mkSummary {
  s_country : string;
  first_year : Z;
  last_year : Z;
  num_years : nat;
  avg_score : option Q;
  min_score : option Q;
  max_score : option Q;
  score_improvement : option Q;
  avg_yearly_change : option Q
}.

Definition clean_scores (g : list CleanRow) : list (option Q) :=
  map (fun o => infrastructure_score (base o)) g.

(** One group of [GROUP BY country]. *)
Definition summary_of (c : string) (clean : list CleanRow) : SummaryRow :=
  let g := filter (fun o => String.eqb (country (base o)) c) clean in
  let ys := map (fun o => year (base o)) g in
  let y0 := hd 0%Z ys in
  {| s_country := c;
     first_year := zmin_list y0 ys;
     last_year := zmax_list y0 ys;
     num_years := List.length g;
     avg_score := sql_avg (clean_scores g);
     min_score := sql_min (clean_scores g);
     max_score := sql_max (clean_scores g);
     score_improvement := sql_sub (sql_max (clean_scores g)) (sql_min (clean_scores g));
     avg_yearly_change := sql_avg (map score_change g) |}.

(** [CREATE OR REPLACE TABLE country_summary AS SELECT ...
     FROM clean_infrastructure GROUP BY country] *)
Definition country_summary (clean : list CleanRow) : list SummaryRow :=
  map (fun c => summary_of c clean)
      (nodup string_dec (map (fun o => country (base o)) clean)).

(* ------------------------------------------------------------------ *)
(** ** [transform]: yearly_trends *)

Record TrendRow := mkTrend {
  t_year : Z;
  global_avg_score : option Q;
  score_std_dev : option Q;
  t_min_score : option Q;
  t_max_score : option Q;
  num_countries : nat
}.

Definition trend_of (y : Z) (clean : list CleanRow) : TrendRow :=
  let g := filter (fun o => (year (base o) =? y)%Z) clean in
  {| t_year := y;
     global_avg_score := sql_avg (clean_scores g);
     score_std_dev := sql_stddev (clean_scores g);
     t_min_score := sql_min (clean_scores g);
     t_max_score := sql_max (clean_scores g);
     num_countries := count_distinct (map (fun o => country (base o)) g) |}.

(** [CREATE OR REPLACE TABLE yearly_trends AS SELECT ...
     FROM clean_infrastructure GROUP BY year ORDER BY year] *)
Definition yearly_trends (clean : list CleanRow) : list TrendRow :=
  map (fun y => trend_of y clean)
      (sort_by Z.leb (nodup Z.eq_dec (map (fun o => year (base o)) clean))).

(* ------------------------------------------------------------------ *)
(** ** [create_analytics_views]: top_performers *)

Record TopRow := mkTop {
  top_country : string;
  top_avg_score : option Q;
  top_score_improvement : option Q;
  latest_score : option Q;
  latest_rank : nat
}.

(** [SELECT MAX(year) FROM clean_infrastructure]: NULL on an empty table. *)
Definition max_year (clean : list CleanRow) : option Z :=
  match map (fun o => year (base o)) clean with
  | [] => None
  | y :: ys => Some (zmax_list y ys)
  end.

(** [FROM country_summary c JOIN clean_infrastructure ci
     ON c.country = ci.country WHERE ci.year = m] *)
Definition top_join (summary : list SummaryRow) (clean : list CleanRow) (m : Z)
  : list TopRow :=
  flat_map (fun c =>
    flat_map (fun ci =>
      if String.eqb (s_country c) (country (base ci)) && (year (base ci) =? m)%Z
      then [ {| top_country := s_country c;
                top_avg_score := avg_score c;
                top_score_improvement := score_improvement c;
                latest_score := infrastructure_score (base ci);
                latest_rank := yearly_rank ci |} ]
      else []) clean) summary.

(** [CREATE OR REPLACE VIEW top_performers AS ...
     ORDER BY ci.infrastructure_score DESC LIMIT 10] *)
Definition top_performers (summary : list SummaryRow) (clean : list CleanRow)
  : list TopRow :=
  match max_year clean with
  | None => []
  | Some m =>
      firstn 10 (sort_by (fun a b => score_desc_le (latest_score a) (latest_score b))
                         (top_join summary clean m))
  end.

(* ------------------------------------------------------------------ *)
(** ** [run_quality_checks] *)

(** Python's [str] of a non-negative [int]: its decimal digits. *)
Fixpoint digits_of (fuel n : nat) (acc : string) : string :=
  match fuel with
  | O => acc
  | S f =>
      let acc' := String (ascii_of_nat (48 + n mod 10)%nat) acc in
      if (n <? 10)%nat then acc' else digits_of f (n / 10)%nat acc'
  end.

Definition nat_to_string (n : nat) : string := digits_of (S n) n EmptyString.

Record CheckResult := mkCheck {
  check : string;
  passed : bool;
  details : string
}.

Record QualityReport := mkReport {
  timestamp : nat;
  checks : list CheckResult;
  all_passed : bool
}.

(** [SELECT COUNT( * ) FROM clean_infrastructure
     WHERE infrastructure_score IS NULL] *)
Definition null_count (clean : list CleanRow) : nat :=
  List.length (filter (fun o => match infrastructure_score (base o) with
                                | None => true | Some _ => false end) clean).

Definition key_eqb (a b : string * Z) : bool :=
  String.eqb (fst a) (fst b) && (snd a =? snd b)%Z.

Definition key_dec (a b : string * Z) : {a = b} + {a <> b}.
Proof. decide equality; [apply Z.eq_dec | apply string_dec]. Defined.

Definition row_key (o : CleanRow) : string * Z := (country (base o), year (base o)).

(** [SELECT COUNT( * ) FROM (SELECT country, year, COUNT( * ) AS cnt
     FROM clean_infrastructure GROUP BY country, year HAVING COUNT( * ) > 1)] *)
Definition dup_count (clean : list CleanRow) : nat :=
  let keys := map row_key clean in
  List.length (filter (fun k => (1 <? count_occ key_dec keys k)%nat)
                      (nodup key_dec keys)).

Definition quality_checks (clean : list CleanRow) : list CheckResult :=
  let null_check := null_count clean in
  let dup_check := dup_count clean in
  [ {| check := "null_values"; passed := (null_check =? 0)%nat;
       details := ("Found " ++ nat_to_string null_check ++ " null values")%string |};
    {| check := "duplicates"; passed := (dup_check =? 0)%nat;
       details := ("Found " ++ nat_to_string dup_check ++ " duplicate records")%string |} ].

(** The report saved to [quality_report.json]; [all_passed] is
    [all(c['passed'] for c in checks)]. *)
Definition quality_report (now : nat) (clean : list CleanRow) : QualityReport :=
  let cs := quality_checks clean in
  {| timestamp := now; checks := cs; all_passed := forallb passed cs |}.

(** [s] occurs in [t]. *)
Definition contains (s t : string) : bool :=
  match String.index 0 s t with Some _ => true | None => false end.

(* ------------------------------------------------------------------ *)
(** ** The driver: stages over the DuckDB catalog and the output directory *)

Inductive Stage := Extract | Transform | Load | Views | Quality.

(** Exceptions a stage can raise.  [KeyboardInterrupt] is a
    [BaseException], the others are [Exception]s. *)
Inductive Exc :=
| CatalogException (table : string)
| IOException (path : string)
| ConnectionException
| KeyboardInterrupt.

Definition is_Exception (e : Exc) : bool :=
  match e with KeyboardInterrupt => false | _ => true end.

Inductive LogEvent :=
| StageStarted (s : Stage)
| StageDone (s : Stage)
| PipelineSucceeded
| PipelineFailed (e : Exc)
| ConnectionClosed.

(** Tables and views of the persistent database [data/infrastructure.duckdb]. *)
Record Catalog := mkCatalog {
  raw_infrastructure : option (list RawRow);
  clean_tbl : option (list CleanRow);
  summary_tbl : option (list SummaryRow);
  trends_tbl : option (list TrendRow);
  top_view : option (list TopRow)
}.

Record World := mkWorld {
  catalog : Catalog;
  conn_open : bool;
  closes : nat;                         (* calls of [self.conn.close()] *)
  raw_csv : option (list RawRow);       (* data/raw/infrastructure_resilience_scores.csv *)
  out_writable : bool;                  (* data/final can be written *)
  writes : list string;                 (* output files written, in order *)
  report : option QualityReport;        (* content of quality_report.json *)
  clock : nat;                          (* datetime.now() *)
  interrupt_at : option Stage;          (* a stage interrupted by the user *)
  log : list LogEvent
}.

Definition set_catalog (c : Catalog) (w : World) : World :=
  {| catalog := c; conn_open := conn_open w; closes := closes w; raw_csv := raw_csv w;
     out_writable := out_writable w; writes := writes w; report := report w;
     clock := clock w; interrupt_at := interrupt_at w; log := log w |}.

Definition add_writes (fs : list string) (w : World) : World :=
  {| catalog := catalog w; conn_open := conn_open w; closes := closes w; raw_csv := raw_csv w;
     out_writable := out_writable w; writes := writes w ++ fs; report := report w;
     clock := clock w; interrupt_at := interrupt_at w; log := log w |}.

Definition set_report (r : QualityReport) (w : World) : World :=
  {| catalog := catalog w; conn_open := conn_open w; closes := closes w; raw_csv := raw_csv w;
     out_writable := out_writable w; writes := writes w; report := Some r;
     clock := clock w; interrupt_at := interrupt_at w; log := log w |}.

Definition add_log (e : LogEvent) (w : World) : World :=
  {| catalog := catalog w; conn_open := conn_open w; closes := closes w; raw_csv := raw_csv w;
     out_writable := out_writable w; writes := writes w; report := report w;
     clock := clock w; interrupt_at := interrupt_at w; log := log w ++ [e] |}.

(** [self.conn.close()]: DuckDB's close never raises, also when closed. *)
Definition close_conn (w : World) : World :=
  add_log ConnectionClosed
    {| catalog := catalog w; conn_open := false; closes := S (closes w); raw_csv := raw_csv w;
       out_writable := out_writable w; writes := writes w; report := report w;
       clock := clock w; interrupt_at := interrupt_at w; log := log w |}.

(** A small state and exception monad. *)
Inductive Outcome (A : Type) := Ret (a : A) | Raise (e : Exc).
Arguments Ret {A} a.
Arguments Raise {A} e.

Definition M (A : Type) := World -> Outcome A * World.

Definition ret {A} (a : A) : M A := fun w => (Ret a, w).
Definition raise {A} (e : Exc) : M A := fun w => (Raise e, w).
Definition bind {A B} (m : M A) (k : A -> M B) : M B :=
  fun w => match m w with
           | (Ret a, w') => k a w'
           | (Raise e, w') => (Raise e, w')
           end.
Definition modify (f : World -> World) : M unit := fun w => (Ret tt, f w).
Definition get : M World := fun w => (Ret w, w).

Notation "x <- m ;; k" := (bind m (fun x => k)) (at level 61, m at next level, right associativity).
Notation "m ;;; k" := (bind m (fun _ => k)) (at level 61, right associativity).

(** Entering a stage: its first log line, and the point where a user
    interrupt is delivered. *)
Definition enter (s : Stage) : M unit :=
  modify (add_log (StageStarted s)) ;;;
  w <- get ;;
  match interrupt_at w with
  | Some s' => match s, s' with
               | Extract, Extract | Transform, Transform | Load, Load
               | Views, Views | Quality, Quality => raise KeyboardInterrupt
               | _, _ => ret tt
               end
  | None => ret tt
  end.

(** Any [self.conn.execute]: fails on a closed connection. *)
Definition need_conn : M unit :=
  w <- get ;; if conn_open w then ret tt else raise ConnectionException.

(** Writing a file under [data/final]. *)
Definition write_files (fs : list string) : M unit :=
  w <- get ;;
  match fs with
  | [] => ret tt
  | f :: _ => if out_writable w then modify (add_writes fs) else raise (IOException f)
  end.

Definition extract : M bool :=
  enter Extract ;;;
  w <- get ;;
  match raw_csv w with
  | Some rows =>
      need_conn ;;;
      modify (set_catalog (let c := catalog w in
        {| raw_infrastructure := Some rows; clean_tbl := clean_tbl c;
           summary_tbl := summary_tbl c; trends_tbl := trends_tbl c;
           top_view := top_view c |})) ;;;
      ret true
  | None => ret true
  end.

Definition transform : M bool :=
  enter Transform ;;;
  need_conn ;;;
  w <- get ;;
  match raw_infrastructure (catalog w) with
  | None => raise (CatalogException "raw_infrastructure"%string)
  | Some raw =>
      let clean := clean_infrastructure raw in
      modify (set_catalog
        {| raw_infrastructure := Some raw; clean_tbl := Some clean;
           summary_tbl := Some (country_summary clean);
           trends_tbl := Some (yearly_trends clean);
           top_view := top_view (catalog w) |}) ;;;
      modify (add_log (StageDone Transform)) ;;;
      ret true
  end.

Definition load : M bool :=
  enter Load ;;;
  need_conn ;;;
  write_files ["clean_infrastructure.parquet"%string; "clean_infrastructure.csv"%string;
               "country_summary.parquet"%string; "country_summary.csv"%string;
               "yearly_trends.parquet"%string; "yearly_trends.csv"%string] ;;;
  write_files ["pipeline_metadata.json"%string] ;;;
  ret true.

Definition create_analytics_views : M unit :=
  enter Views ;;;
  need_conn ;;;
  w <- get ;;
  match clean_tbl (catalog w), summary_tbl (catalog w) with
  | Some clean, Some summary =>
      let c := catalog w in
      modify (set_catalog
        {| raw_infrastructure := raw_infrastructure c; clean_tbl := clean_tbl c;
           summary_tbl := summary_tbl c; trends_tbl := trends_tbl c;
           top_view := Some (top_performers summary clean) |}) ;;;
      write_files ["top_performers.csv"%string]
  | None, _ => raise (CatalogException "clean_infrastructure"%string)
  | _, None => raise (CatalogException "country_summary"%string)
  end.

Definition run_quality_checks : M bool :=
  enter Quality ;;;
  need_conn ;;;
  w <- get ;;
  match clean_tbl (catalog w) with
  | None => raise (CatalogException "clean_infrastructure"%string)
  | Some clean =>
      let r := quality_report (clock w) clean in
      write_files ["quality_report.json"%string] ;;;
      modify (set_report r) ;;;
      ret (all_passed r)
  end.

(** [run_pipeline]: [try: ... return True / except Exception: return False
    / finally: self.close()]. *)
Definition run_pipeline (w : World) : Outcome bool * World :=
  let body := extract ;;; transform ;;; load ;;; create_analytics_views ;;;
              run_quality_checks ;;; ret true in
  match body w with
  | (Ret b, w1) => (Ret b, close_conn (add_log PipelineSucceeded w1))
  | (Raise e, w1) =>
      if is_Exception e then (Ret false, close_conn (add_log (PipelineFailed e) w1))
      else (Raise e, close_conn w1)
  end.

(* ------------------------------------------------------------------ *)
(** ** [load]: the content of pipeline_metadata.json *)

Definition tables_to_export : list string :=
  ["clean_infrastructure"; "country_summary"; "yearly_trends"]%string.

Record Metadata := mkMetadata {
  pipeline_run : nat;
  tables_created : list string;
  record_counts : list (string * nat)
}.

(** [SELECT COUNT( * ) FROM table]: [None] when the catalog lacks the table. *)
Definition table_count (c : Catalog) (t : string) : option nat :=
  if String.eqb t "clean_infrastructure" then option_map (@List.length _) (clean_tbl c)
  else if String.eqb t "country_summary" then option_map (@List.length _) (summary_tbl c)
  else if String.eqb t "yearly_trends" then option_map (@List.length _) (trends_tbl c)
  else None.

(** The loop filling [metadata['record_counts']], one table after the other. *)
Fixpoint count_tables (c : Catalog) (ts : list string) : option (list (string * nat)) :=
  match ts with
  | [] => Some []
  | t :: rest =>
      match table_count c t, count_tables c rest with
      | Some n, Some rc => Some ((t, n) :: rc)
      | _, _ => None
      end
  end.

(** The dictionary dumped to [pipeline_metadata.json]. *)
Definition pipeline_metadata (now : nat) (c : Catalog) : option Metadata :=
  match count_tables c tables_to_export with
  | Some rc => Some {| pipeline_run := now; tables_created := tables_to_export;
                      record_counts := rc |}
  | None => None
  end.

(* ------------------------------------------------------------------ *)
(** ** [InfrastructureETL.__init__] and [main] *)

(** [__init__]: [duckdb.connect] opens a new connection on the persistent
    database file, whose catalog is what earlier runs left in it. *)
Definition InfrastructureETL (w : World) : World :=
  {| catalog := catalog w; conn_open := true; closes := closes w; raw_csv := raw_csv w;
     out_writable := out_writable w; writes := writes w; report := report w;
     clock := clock w; interrupt_at := interrupt_at w; log := log w |}.

(** [main]: [pipeline = InfrastructureETL(); success = pipeline.run_pipeline();
    return success] (the printing is not modelled). *)
Definition main (w : World) : Outcome bool * World :=
  let pipeline := InfrastructureETL w in
  run_pipeline pipeline.

(* ------------------------------------------------------------------ *)
(** ** [src/dashboard/app.py]: [load_data] *)

Inductive DataSource := ActualData | SampleData.

(** The files [load_data] reads from [data/final]. *)
Definition dashboard_files : list string :=
  ["clean_infrastructure.csv"; "country_summary.csv"; "yearly_trends.csv";
   "top_performers.csv"; "pipeline_metadata.json"]%string.

(** [try: read every file ... except: return generate_sample_data()]: the
    pipeline's output is used only when every file it reads exists. *)
Definition load_data (final_files : list string) : DataSource :=
  if forallb (fun f => existsb (String.eqb f) final_files) dashboard_files
  then ActualData else SampleData.

(** [create_kpi_cards]: [best_performer = datasets['top_performers'].iloc[0]['country']];
    [None] is the [IndexError] of [iloc[0]] on an empty table. *)
Definition best_performer (top : list TopRow) : option string :=
  match top with
  | [] => None
  | t :: _ => Some (top_country t)
  end.

(* ------------------------------------------------------------------ *)
(** ** [src/etl/collect_data.py]: [download_sample_infrastructure_data] *)

Definition sample_countries : list string :=
  ["United States"; "China"; "Japan"; "Germany"; "India";
   "United Kingdom"; "France"; "Italy"; "Brazil"; "Canada";
   "South Korea"; "Spain"; "Australia"; "Mexico"; "Indonesia"]%string.

(** Python's [range(a, b)]. *)
Definition range (a b : Z) : list Z :=
  map (fun k => (a + Z.of_nat k)%Z) (seq 0 (Z.to_nat (b - a))).

(** [countries.index(c)]: the position of the first occurrence (the loop
    only asks for members, so Python's ValueError does not arise). *)
Fixpoint list_index (c : string) (l : list string) : nat :=
  match l with
  | [] => 0
  | x :: t => if String.eqb x c then 0 else S (list_index c t)
  end.

(** The record appended for country [c] and year [y]. *)
Definition sample_record (countries : list string) (c : string) (y : Z) : RawRow :=
  let base_score := inject_Z (50 + Z.of_nat (list_index c countries) * 2) in
  let year_improvement := inject_Z (y - 2010) * (1 # 2) in
  {| country := c; year := y;
     infrastructure_score := Some (base_score + year_improvement);
     transport_resilience := Some (base_score + year_improvement + 5);
     energy_resilience := Some (base_score + year_improvement - 5);
     water_resilience := Some (base_score + year_improvement + 2);
     digital_resilience := Some (base_score + year_improvement + 10) |}.

(** [for country in countries: for year in years: data.append(...)] *)
Definition sample_data (countries : list string) (years : list Z) : list RawRow :=
  flat_map (fun c => map (fun y => sample_record countries c y) years) countries.

(** The rows saved to [infrastructure_resilience_scores.csv]. *)
Definition download_sample_infrastructure_data : list RawRow :=
  sample_data sample_countries (range 2010 2024).

(* ------------------------------------------------------------------ *)
(** ** Notions the claims are stated with *)

(** A score [k] is strictly higher than [s] (NULL is not). *)
Definition score_better (s : Q) (k : option Q) : bool :=
  match k with Some q => negb (Qle_bool q s) | None => false end.

(** A count as a rational. *)
Definition nQ (n : nat) : Q := inject_Z (Z.of_nat n).




(** The rows Transform reads: the CSV just loaded by Extract, else what the
    database already holds. *)
Definition input_rows (w : World) : option (list RawRow) :=
  match raw_csv w with Some r => Some r | None => raw_infrastructure (catalog w) end.

(** The [try] block of [run_pipeline]. *)
Definition pipeline_body : M bool :=
  extract ;;; transform ;;; load ;;; create_analytics_views ;;; run_quality_checks ;;; ret true.

(** The stages in the order [run_pipeline] calls them. *)
Definition pipeline_stages : list Stage := [Extract; Transform; Load; Views; Quality].

Definition stage_index (s : Stage) : nat :=
  match s with Extract => 0 | Transform => 1 | Load => 2 | Views => 3 | Quality => 4 end.

Definition is_stage_start (e : LogEvent) : bool :=
  match e with StageStarted _ => true | _ => false end.

(** Every file a complete run writes under [data/final], in order. *)
Definition pipeline_outputs : list string :=
  ["clean_infrastructure.parquet"; "clean_infrastructure.csv";
   "country_summary.parquet"; "country_summary.csv";
   "yearly_trends.parquet"; "yearly_trends.csv"; "pipeline_metadata.json";
   "top_performers.csv"; "quality_report.json"]%string.

(** Reading a string of decimal digits: its value and its length, [None]
    on a non-digit. *)
Fixpoint digits_value (s : string) : option (nat * nat) :=
  match s with
  | EmptyString => Some (0%nat, 0%nat)
  | String a t =>
      match digits_value t with
      | Some (v, k) =>
          let d := nat_of_ascii a in
          if (48 <=? d)%nat && (d <=? 57)%nat then Some (((d - 48) * 10 ^ k + v)%nat, S k)
          else None
      | None => None
      end
  end.

Definition decimal_value (s : string) : option nat :=
  match s with EmptyString => None | _ => option_map fst (digits_value s) end.

(* ------------------------------------------------------------------ *)
(** ** Sample inputs *)

Definition sample_row (c : string) (y : Z) (s : Q) : RawRow :=
  mkRaw c y (Some s) (Some 1) (Some 2) (Some 3) (Some 4).

(** Four countries; one row before 2010; country A skips 2012 and 2013;
    A and C tie in 2014. *)
Definition sample_raw : list RawRow :=
  [sample_row "B" 2012 5; sample_row "A" 2011 3; sample_row "A" 2009 1;
   sample_row "B" 2010 4; sample_row "A" 2014 7; sample_row "C" 2014 7;
   sample_row "D" 2014 2; sample_row "A" 2010 2].

Definition dummy_clean : CleanRow := mkClean (sample_row "" 0 0) None None 0.

(** Two rows of country A for 2015: one year, two records. *)
Definition dup_raw : list RawRow := [sample_row "A" 2015 1; sample_row "A" 2015 3].

Definition dummy_trend : TrendRow := mkTrend 0 None None None None 0.

Definition empty_catalog : Catalog := mkCatalog None None None None None.

(** A fresh run: connection open, output directory writable, nothing
    interrupted, the raw CSV holding [rows]. *)
Definition fresh_world (csv : option (list RawRow)) : World :=
  mkWorld empty_catalog true 0 csv true [] None 0 None [].

(** A run whose CSV is missing while the persistent database still holds
    [raw_infrastructure] from an earlier run. *)
Definition stale_world : World :=
  mkWorld (mkCatalog (Some sample_raw) None None None None) true 0 None true [] None 0 None [].

(** A run whose output directory [data/final] cannot be written. *)
Definition readonly_world : World :=
  mkWorld empty_catalog true 0 (Some sample_raw) false [] None 0 None [].

(** A run on a connection that is already closed. *)
Definition closed_world : World :=
  mkWorld empty_catalog false 0 (Some sample_raw) true [] None 0 None [].

(** A run the user interrupts when stage [s] starts. *)
Definition interrupted_world (s : Stage) : World :=
  mkWorld empty_catalog true 0 (Some sample_raw) true [] None 0 (Some s) [].

(* ================================================================== *)
(** * Lemmas *)

Open Scope nat_scope.

(** Tactics for the concrete instances below. *)
Ltac in_list := vm_compute; repeat (first [left; reflexivity | right]).
Ltac nodup_list := vm_compute; repeat constructor; simpl; intuition congruence.

(** ** Sorting *)

Section Sorting.
Context {A : Type} (le : A -> A -> bool).

Lemma insert_by_perm (x : A) (l : list A) : Permutation (insert_by le x l) (x :: l).
Proof.
  induction l as [|y t IH]; simpl; [auto|].
  destruct (le x y); [auto|].
  rewrite IH. apply perm_swap.
Qed.

Lemma sort_by_perm (l : list A) : Permutation (sort_by le l) l.
Proof.
  induction l as [|x t IH]; simpl; [auto|].
  rewrite insert_by_perm. auto.
Qed.

Lemma in_sort_by (x : A) (l : list A) : In x (sort_by le l) <-> In x l.
Proof. split; apply Permutation_in; [|symmetry]; apply sort_by_perm. Qed.

Hypothesis le_total : forall x y, le x y = true \/ le y x = true.

Lemma insert_by_sorted (x : A) (l : list A) :
  Sorted (fun a b => le a b = true) l ->
  Sorted (fun a b => le a b = true) (insert_by le x l).
Proof.
  induction 1 as [|y t Hs IH Hhd]; simpl; [auto|].
  destruct (le x y) eqn:Exy; [auto|].
  constructor; [exact IH|].
  assert (Hyx : le y x = true) by (destruct (le_total x y); congruence).
  inversion Hhd as [|z t' Hyz]; subst; simpl; [auto|].
  destruct (le x z); auto.
Qed.

Lemma sort_by_sorted (l : list A) : Sorted (fun a b => le a b = true) (sort_by le l).
Proof. induction l; simpl; [constructor|]. now apply insert_by_sorted. Qed.

Hypothesis le_trans : forall x y z, le x y = true -> le y z = true -> le x z = true.

Lemma sort_by_strongly_sorted (l : list A) :
  StronglySorted (fun a b => le a b = true) (sort_by le l).
Proof.
  apply Sorted_StronglySorted; [|apply sort_by_sorted].
  intros x y z; apply le_trans.
Qed.

End Sorting.

Lemma Sorted_firstn {A} (R : A -> A -> Prop) n (l : list A) :
  Sorted R l -> Sorted R (firstn n l).
Proof.
  revert l; induction n as [|n IH]; intros l Hs; simpl; [constructor|].
  destruct l as [|x t]; [constructor|].
  apply Sorted_inv in Hs as [Ht Hhd].
  constructor; [now apply IH|].
  destruct n, t; simpl; try constructor.
  now inversion Hhd.
Qed.

Lemma length_filter_perm {A} (f : A -> bool) (l l' : list A) :
  Permutation l l' -> List.length (filter f l) = List.length (filter f l').
Proof.
  induction 1; simpl; auto.
  - destruct (f x); simpl; auto.
  - destruct (f x), (f y); simpl; auto.
  - congruence.
Qed.

(** ** Indexing *)

Lemma index_from_snd {A} k (l : list A) : map snd (index_from k l) = l.
Proof. revert k; induction l; simpl; intros; f_equal; auto. Qed.

Lemma index_from_fst_ge {A} k (l : list A) i x :
  In (i, x) (index_from k l) -> k <= i.
Proof.
  revert k; induction l as [|y t IH]; simpl; intros k H; [contradiction|].
  destruct H as [H|H]; [inversion H; lia|]. apply IH in H; lia.
Qed.

Lemma index_from_nodup {A} k (l : list A) : NoDup (map fst (index_from k l)).
Proof.
  revert k; induction l as [|y t IH]; simpl; intros k; constructor; auto.
  intros Hin. apply in_map_iff in Hin as [[i x] [Hi Hin]]; simpl in Hi; subst.
  apply index_from_fst_ge in Hin; lia.
Qed.

Lemma in_index_from {A} k (l : list A) x :
  In x l <-> exists i, In (i, x) (index_from k l).
Proof.
  revert k; induction l as [|y t IH]; simpl; intros k.
  - split; [contradiction|]. intros [i []].
  - split.
    + intros [<-|H]; [exists k; auto|]. apply (IH (S k)) in H as [i Hi]. eauto.
    + intros [i [H|H]]; [inversion H; auto|]. right. apply (IH (S k)). eauto.
Qed.

Lemma NoDup_map_filter {A B} (g : A -> B) (keep : A -> bool) (xs : list A) :
  NoDup (map g xs) -> NoDup (map g (filter keep xs)).
Proof.
  intros H; induction xs as [|x t IH]; simpl in *; [constructor|].
  apply NoDup_cons_iff in H as [Hx Ht].
  destruct (keep x); simpl; [|auto].
  apply NoDup_cons_iff. split; [|auto].
  intros Hin. apply Hx. apply in_map_iff in Hin as [y [Hy Hin]].
  apply filter_In in Hin. apply in_map_iff. exists y; tauto.
Qed.

Lemma NoDup_map_eq {A B} (f : A -> B) (l : list A) a b :
  NoDup (map f l) -> In a l -> In b l -> f a = f b -> a = b.
Proof.
  induction l as [|x t IH]; simpl; intros Hnd Ha Hb Hf; [contradiction|].
  inversion Hnd as [|? ? Hx Ht]; subst.
  destruct Ha as [<-|Ha], Hb as [<-|Hb]; auto.
  - exfalso; apply Hx. rewrite Hf. now apply in_map.
  - exfalso; apply Hx. rewrite <- Hf. now apply in_map.
Qed.

(** ** LAG over a strictly year-ordered partition *)

Definition year_lt (a b : nat * RawRow) : Prop := (year (snd a) < year (snd b))%Z.

Lemma lag_in_spec (part : list (nat * RawRow)) (prev : option RawRow) i r :
  StronglySorted year_lt part -> NoDup (map fst part) -> In (i, r) part ->
  (forall p, prev = Some p -> forall q, In q part -> (year p < year (snd q))%Z) ->
  match lag_in prev part i with
  | None => prev = None /\ forall q, In q part -> ~ (year (snd q) < year r)%Z
  | Some p =>
      (year p < year r)%Z /\ (prev = Some p \/ In p (map snd part)) /\
      forall q, In q part -> (year (snd q) < year r)%Z -> (year (snd q) <= year p)%Z
  end.
Proof.
  revert prev.
  induction part as [|[j r'] t IH]; intros prev Hss Hnd Hin Hprev; [contradiction|].
  apply StronglySorted_inv in Hss as [Hss Hhd].
  rewrite Forall_forall in Hhd. unfold year_lt in Hhd; simpl in Hhd.
  simpl in Hnd. inversion Hnd as [|? ? Hj Hndt]; subst.
  simpl. destruct (Nat.eqb_spec j i) as [->|Hji].
  - assert (r' = r) as ->.
    { destruct Hin as [Heq|Hin]; [now inversion Heq|].
      exfalso; apply Hj. change i with (fst (i, r)). now apply in_map. }
    assert (Hnot : forall q, In q ((i, r) :: t) -> ~ (year (snd q) < year r)%Z).
    { intros q [<-|Hq]; simpl; [lia|]. specialize (Hhd q Hq); lia. }
    destruct prev as [p|].
    + repeat split; auto.
      * apply (Hprev p eq_refl (i, r)); simpl; auto.
      * intros q Hq Hlt. exfalso; exact (Hnot q Hq Hlt).
    + split; auto.
  - destruct Hin as [Heq|Hin]; [now inversion Heq|].
    specialize (IH (Some r') Hss Hndt Hin).
    assert (Hp : forall p, Some r' = Some p -> forall q, In q t -> (year p < year (snd q))%Z).
    { intros p Hp q Hq; inversion Hp; subst; auto. }
    specialize (IH Hp).
    destruct (lag_in (Some r') t i) as [p|].
    + destruct IH as [Hlt [Hsrc Hmax]].
      assert (Hr'p : (year r' <= year p)%Z).
      { destruct Hsrc as [Hsrc|Hsrc]; [inversion Hsrc; lia|].
        apply in_map_iff in Hsrc as [q [Hq Hqin]]; subst.
        specialize (Hhd q Hqin); lia. }
      repeat split; auto.
      * right. simpl. destruct Hsrc as [Hsrc|Hsrc]; [inversion Hsrc; auto|auto].
      * intros q [<-|Hq] Hq'; simpl; auto.
    + destruct IH as [Habs _]; discriminate.
Qed.

Lemma StronglySorted_strict (l : list (nat * RawRow)) :
  StronglySorted (fun a b => year_le a b = true) l ->
  NoDup (map (fun p => year (snd p)) l) ->
  StronglySorted year_lt l.
Proof.
  induction 1 as [|x t Hs IH Hhd]; intros Hnd; constructor.
  - inversion Hnd; auto.
  - inversion Hnd as [|? ? Hx _]; subst.
    rewrite Forall_forall in *. intros y Hy.
    specialize (Hhd y Hy). unfold year_le, year_lt in *. apply Z.leb_le in Hhd.
    assert (year (snd x) <> year (snd y)).
    { intros Heq; apply Hx. rewrite Heq. now apply (in_map (fun p => year (snd p))). }
    lia.
Qed.

Lemma year_le_total (a b : nat * RawRow) : year_le a b = true \/ year_le b a = true.
Proof. unfold year_le. destruct (Z.leb_spec (year (snd a)) (year (snd b))); [auto|].
       right; apply Z.leb_le; lia. Qed.

Lemma year_le_trans (a b c : nat * RawRow) :
  year_le a b = true -> year_le b c = true -> year_le a c = true.
Proof. unfold year_le; rewrite !Z.leb_le; lia. Qed.

(** ** Rows of clean_infrastructure *)

Lemma in_clean_infrastructure (raw : list RawRow) (o : CleanRow) :
  In o (clean_infrastructure raw) <->
  exists i r, In (i, r) (indexed (year_filter raw)) /\
              o = clean_row (indexed (year_filter raw)) (i, r).
Proof.
  unfold clean_infrastructure. rewrite in_sort_by, in_map_iff.
  split.
  - intros [[i r] [Ho Hin]]. exists i, r; auto.
  - intros [i [r [Hin Ho]]]. exists (i, r); auto.
Qed.

Lemma in_indexed_filtered (raw : list RawRow) (r : RawRow) :
  In r (year_filter raw) <-> exists i, In (i, r) (indexed (year_filter raw)).
Proof. apply in_index_from. Qed.

Lemma nodup_years_of_keys (c : string) (l : list (nat * RawRow)) :
  (forall q, In q l -> country (snd q) = c) ->
  NoDup (map (fun q => raw_key (snd q)) l) ->
  NoDup (map (fun q => year (snd q)) l).
Proof.
  intros Hc Hnd.
  assert (Heq : map (fun q => raw_key (snd q)) l =
                map (fun y => (c, y)) (map (fun q => year (snd q)) l)).
  { rewrite map_map. apply map_ext_in. intros q Hq. unfold raw_key. now rewrite Hc. }
  rewrite Heq in Hnd. now apply NoDup_map_inv in Hnd.
Qed.

Section CountryPartition.
Variable f : list RawRow.
Let ix := indexed f.
Variable c : string.
Let part := sort_by year_le (filter (fun p => String.eqb (country (snd p)) c) ix).

Lemma in_country_part q : In q part <-> In q ix /\ country (snd q) = c.
Proof.
  unfold part. rewrite in_sort_by, filter_In, String.eqb_eq. tauto.
Qed.

Lemma country_part_nodup_idx : NoDup (map fst part).
Proof.
  unfold part. eapply Permutation_NoDup.
  - apply Permutation_map. symmetry. apply sort_by_perm.
  - apply NoDup_map_filter. apply index_from_nodup.
Qed.

Lemma country_part_strict :
  NoDup (map raw_key f) -> StronglySorted year_lt part.
Proof.
  intros Hnd. apply StronglySorted_strict.
  - apply sort_by_strongly_sorted; [apply year_le_total | apply year_le_trans].
  - apply (nodup_years_of_keys c).
    + intros q Hq. now apply in_country_part.
    + eapply Permutation_NoDup.
      * apply Permutation_map. symmetry. apply sort_by_perm.
      * apply NoDup_map_filter.
        rewrite <- map_map. unfold ix, indexed. now rewrite index_from_snd.
Qed.

End CountryPartition.

(** ** C1: score_change is the difference to the previous year present *)

(** Claim C1.  When no (country, year) pair of the year-filtered input is
    repeated, the [score_change] of every row of clean_infrastructure is
    NULL at its country's first year, and otherwise is its score minus the
    score of the same country's row at the greatest earlier year present
    (not necessarily year - 1), computed with SQL's NULL-propagating
    subtraction. *)
Theorem score_change_is_lag (raw : list RawRow)
  (Hnd : NoDup (map raw_key (year_filter raw)))
  (o : CleanRow) (Ho : In o (clean_infrastructure raw)) :
  ((forall r', In r' (year_filter raw) -> country r' = country (base o) ->
               (year (base o) <= year r')%Z) ->
   score_change o = None) /\
  (forall r', In r' (year_filter raw) -> country r' = country (base o) ->
     (year r' < year (base o))%Z ->
     (forall r'', In r'' (year_filter raw) -> country r'' = country (base o) ->
                  (year r'' < year (base o))%Z -> (year r'' <= year r')%Z) ->
     score_change o = sql_sub (infrastructure_score (base o)) (infrastructure_score r')).
Proof.
  apply in_clean_infrastructure in Ho as [i [r [Hin ->]]]. cbn [clean_row base score_change].
  unfold score_change_at.
  set (ix := indexed (year_filter raw)) in *.
  pose proof (lag_in_spec (sort_by year_le (filter (fun p => String.eqb (country (snd p)) (country r)) ix))
                None i r) as Hl.
  pose proof (country_part_strict (year_filter raw) (country r) Hnd) as Hss.
  pose proof (country_part_nodup_idx (year_filter raw) (country r)) as Hnd'.
  fold ix in Hss, Hnd'.
  assert (Hinp : In (i, r) (sort_by year_le (filter (fun p => String.eqb (country (snd p)) (country r)) ix))).
  { apply in_country_part; auto. }
  specialize (Hl Hss Hnd' Hinp ltac:(discriminate)).
  assert (Hpart : forall r', In r' (year_filter raw) -> country r' = country r ->
            exists j, In (j, r') (sort_by year_le (filter (fun p => String.eqb (country (snd p)) (country r)) ix))).
  { intros r' Hr' Hc. apply in_indexed_filtered in Hr' as [j Hj]. exists j.
    apply in_country_part; auto. }
  destruct (lag_in None _ i) as [p|].
  - destruct Hl as [Hlt [Hsrc Hmax]].
    destruct Hsrc as [Habs|Hsrc]; [discriminate|].
    apply in_map_iff in Hsrc as [[k p'] [Hp Hk]]; simpl in Hp; subst p'.
    apply in_country_part in Hk as [Hk Hkc]; simpl in Hkc.
    assert (Hpf : In p (year_filter raw)).
    { apply in_indexed_filtered. eauto. }
    split.
    + intros Hfirst. specialize (Hfirst p Hpf Hkc). simpl in Hfirst. lia.
    + intros r' Hr' Hc Hlt' Hmax'. simpl in *.
      destruct (Hpart r' Hr' Hc) as [j Hj].
      specialize (Hmax (j, r') Hj Hlt'). simpl in Hmax.
      specialize (Hmax' p Hpf Hkc Hlt).
      assert (p = r') as ->; [|reflexivity].
      apply (NoDup_map_eq raw_key (year_filter raw)); auto.
      unfold raw_key. f_equal; [congruence | lia].
  - destruct Hl as [_ Hnone]. split; [reflexivity|].
    intros r' Hr' Hc Hlt' _. simpl in *.
    destruct (Hpart r' Hr' Hc) as [j Hj].
    exfalso. exact (Hnone (j, r') Hj Hlt').
Qed.

(** ** RANK over a partition sorted by score, descending *)

Lemma score_desc_le_total a b : score_desc_le a b = true \/ score_desc_le b a = true.
Proof.
  destruct a as [x|], b as [y|]; simpl; auto.
  destruct (Qlt_le_dec x y) as [H|H]; [right|left]; apply Qle_bool_iff; auto.
  apply Qlt_le_weak; auto.
Qed.

Lemma score_desc_le_trans a b c :
  score_desc_le a b = true -> score_desc_le b c = true -> score_desc_le a c = true.
Proof.
  destruct a as [x|], b as [y|], c as [z|]; simpl; auto; try discriminate.
  rewrite !Qle_bool_iff. intros H1 H2. eapply Qle_trans; eauto.
Qed.

Lemma filter_all_false {A} (f : A -> bool) (l : list A) :
  (forall y, In y l -> f y = false) -> filter f l = [].
Proof.
  induction l as [|x t IH]; simpl; intros H; auto.
  rewrite H by auto. apply IH; auto.
Qed.

Lemma first_peer_pos_better {A} (k : A -> option Q) (s : Q) (l : list A) :
  StronglySorted (fun a b => score_desc_le (k a) (k b) = true) l ->
  (exists x, In x l /\ score_peer (k x) (Some s) = true) ->
  first_peer_pos (fun x => score_peer (k x) (Some s)) l =
  List.length (filter (fun x => score_better s (k x)) l).
Proof.
  induction 1 as [|x t Hs IH Hhd]; intros [z [Hz Hpz]]; [contradiction|].
  rewrite Forall_forall in Hhd. cbv beta in Hhd.
  change (first_peer_pos _ (x :: t)) with
    (if score_peer (k x) (Some s) then 0
     else S (first_peer_pos (fun x => score_peer (k x) (Some s)) t)).
  destruct (score_peer (k x) (Some s)) eqn:Hpx.
  - (* nothing is strictly better than a peer at the head *)
    destruct (k x) as [qx|] eqn:Ekx; [|discriminate].
    simpl in Hpx. apply Qeq_bool_iff in Hpx.
    rewrite filter_all_false; [reflexivity|].
    intros y [<-|Hy].
    + rewrite Ekx; simpl. apply negb_false_iff, Qle_bool_iff. rewrite Hpx. apply Qle_refl.
    + specialize (Hhd y Hy). try rewrite Ekx in Hhd.
      destruct (k y) as [qy|]; simpl in *; auto.
      apply negb_false_iff, Qle_bool_iff. apply Qle_bool_iff in Hhd.
      rewrite <- Hpx. exact Hhd.
  - (* the head comes strictly before the peer [z] further on *)
    destruct Hz as [<-|Hz]; [congruence|].
    specialize (Hhd z Hz).
    destruct (k z) as [qz|] eqn:Ekz; [|discriminate].
    simpl in Hpz. apply Qeq_bool_iff in Hpz.
    assert (Hb : score_better s (k x) = true).
    { destruct (k x) as [qx|]; [|discriminate].
      simpl in Hhd, Hpx |- *. apply Qle_bool_iff in Hhd.
      apply negb_true_iff. destruct (Qle_bool qx s) eqn:E; auto.
      apply Qle_bool_iff in E. exfalso.
      assert (qx == s) by (apply Qle_antisym; auto; rewrite <- Hpz; auto).
      apply Qeq_bool_iff in H. congruence. }
    simpl. rewrite Hb. simpl. f_equal. apply IH.
    exists z. split; auto. rewrite Ekz. simpl. now apply Qeq_bool_iff.
Qed.

Lemma length_filter_snd {B} (h : RawRow -> bool) (l : list (B * RawRow)) :
  List.length (filter (fun p => h (snd p)) l) = List.length (filter h (map snd l)).
Proof. induction l as [|[b x] t IH]; simpl; auto. destruct (h x); simpl; auto. Qed.

Lemma filter_filter_andb {A} (f g : A -> bool) (l : list A) :
  filter f (filter g l) = filter (fun x => g x && f x) l.
Proof.
  induction l as [|x t IH]; simpl; auto.
  destruct (g x); simpl; [destruct (f x); simpl; congruence | auto].
Qed.

Lemma yearly_rank_formula (raw : list RawRow) (o : CleanRow) (s : Q) :
  In o (clean_infrastructure raw) -> infrastructure_score (base o) = Some s ->
  yearly_rank o =
  S (List.length (filter (fun r => (year r =? year (base o))%Z &&
                                   score_better s (infrastructure_score r))
                         (year_filter raw))).
Proof.
  intros Ho Hs.
  apply in_clean_infrastructure in Ho as [i [r [Hin ->]]].
  cbn [clean_row base yearly_rank] in *. unfold rank_at. rewrite Hs. f_equal.
  set (ix := indexed (year_filter raw)) in *.
  set (P := filter (fun p => (year (snd p) =? year r)%Z) ix).
  rewrite (first_peer_pos_better (fun p => infrastructure_score (snd p)) s).
  - rewrite (length_filter_perm _ _ P) by apply sort_by_perm.
    unfold P. rewrite filter_filter_andb.
    rewrite (length_filter_snd (fun r0 => (year r0 =? year r)%Z &&
                                         score_better s (infrastructure_score r0))).
    unfold ix, indexed. now rewrite index_from_snd.
  - apply sort_by_strongly_sorted.
    + intros a b; apply score_desc_le_total.
    + intros a b c; apply score_desc_le_trans.
  - exists (i, r). split.
    + apply in_sort_by. unfold P. apply filter_In. split; auto. apply Z.eqb_refl.
    + simpl. rewrite Hs. simpl. apply Qeq_bool_iff. reflexivity.
Qed.

Lemma score_better_compat s1 s2 k : s1 == s2 -> score_better s1 k = score_better s2 k.
Proof.
  intros E. destruct k as [q|]; simpl; auto. f_equal.
  destruct (Qle_bool q s1) eqn:E1, (Qle_bool q s2) eqn:E2; auto;
    rewrite Qle_bool_iff in *; rewrite <- Qle_bool_iff in *;
    [rewrite <- E in E2 | rewrite E in E1]; congruence.
Qed.

(** Row 2 of clean_infrastructure on [sample_raw] is A's 2014 row, whose
    previous year present is 2011. *)
Lemma score_change_is_lag_witness :
  NoDup (map raw_key (year_filter sample_raw)) /\
  In (nth 2 (clean_infrastructure sample_raw) dummy_clean) (clean_infrastructure sample_raw) /\
  score_change (nth 2 (clean_infrastructure sample_raw) dummy_clean) =
  sql_sub (infrastructure_score (base (nth 2 (clean_infrastructure sample_raw) dummy_clean)))
          (infrastructure_score (sample_row "A" 2011 3)).
Proof.
  assert (H1 : NoDup (map raw_key (year_filter sample_raw))) by nodup_list.
  assert (H2 : In (nth 2 (clean_infrastructure sample_raw) dummy_clean)
                  (clean_infrastructure sample_raw)) by (apply nth_In; vm_compute; lia).
  split; [exact H1|split; [exact H2|]].
  apply (proj2 (score_change_is_lag sample_raw H1 _ H2)).
  - in_list.
  - vm_compute; reflexivity.
  - vm_compute; reflexivity.
  - intros r'' Hin Hc Hlt. vm_compute in Hin.
    repeat destruct Hin as [<-|Hin]; try contradiction; vm_compute in *; congruence.
Defined.

(** ** C2: yearly_rank is the standard competition rank within a year *)

(** Claim C2.  Within each year, a row with score [s] gets rank 1 plus the
    number of rows of that year with a strictly higher score (so a tie at
    rank 2 is followed by rank 4); rank 1 goes exactly to the rows holding
    the year's highest score, and rows with equal scores in a year share
    their rank.  Only rows of the same year count. *)
Theorem yearly_rank_standard_competition (raw : list RawRow) :
  (forall o s, In o (clean_infrastructure raw) -> infrastructure_score (base o) = Some s ->
     yearly_rank o =
     S (List.length (filter (fun r => (year r =? year (base o))%Z &&
                                      score_better s (infrastructure_score r))
                            (year_filter raw)))) /\
  (forall o s, In o (clean_infrastructure raw) -> infrastructure_score (base o) = Some s ->
     (yearly_rank o = 1 <->
      forall r q, In r (year_filter raw) -> year r = year (base o) ->
                  infrastructure_score r = Some q -> (q <= s)%Q)) /\
  (forall o1 o2 s1 s2,
     In o1 (clean_infrastructure raw) -> In o2 (clean_infrastructure raw) ->
     year (base o1) = year (base o2) ->
     infrastructure_score (base o1) = Some s1 -> infrastructure_score (base o2) = Some s2 ->
     (s1 == s2)%Q -> yearly_rank o1 = yearly_rank o2).
Proof.
  split; [|split].
  - apply yearly_rank_formula.
  - intros o s Ho Hs. rewrite (yearly_rank_formula raw o s Ho Hs). split.
    + intros H r q Hr Hy Hq. injection H as H.
      apply length_zero_iff_nil in H.
      destruct (Qlt_le_dec s q) as [Hlt|Hle]; auto. exfalso.
      assert (In r (filter (fun r => (year r =? year (base o))%Z &&
                                     score_better s (infrastructure_score r))
                           (year_filter raw))) as Hin.
      { apply filter_In. split; auto. rewrite Hy, Z.eqb_refl, Hq. simpl.
        apply negb_true_iff. destruct (Qle_bool q s) eqn:E; auto.
        apply Qle_bool_iff in E. exfalso. apply (Qlt_not_le s q); auto. }
      rewrite H in Hin. contradiction.
    + intros H. f_equal. apply length_zero_iff_nil, filter_all_false.
      intros r Hr. apply andb_false_iff.
      destruct (Z.eqb_spec (year r) (year (base o))) as [Hy|Hy]; [right|left; auto].
      destruct (infrastructure_score r) as [q|] eqn:Hq; simpl; auto.
      apply negb_false_iff, Qle_bool_iff. eapply H; eauto.
  - intros o1 o2 s1 s2 H1 H2 Hy Hs1 Hs2 E.
    rewrite (yearly_rank_formula raw o1 s1 H1 Hs1), (yearly_rank_formula raw o2 s2 H2 Hs2).
    rewrite Hy. do 2 f_equal. apply filter_ext. intros r. f_equal.
    now apply score_better_compat.
Qed.

Lemma clean_base_perm (raw : list RawRow) :
  Permutation (map base (clean_infrastructure raw)) (year_filter raw).
Proof.
  unfold clean_infrastructure.
  rewrite (Permutation_map base (sort_by_perm _ _)).
  rewrite map_map.
  replace (map (fun x => base (clean_row (indexed (year_filter raw)) x))
               (indexed (year_filter raw)))
    with (map snd (indexed (year_filter raw))).
  - unfold indexed. now rewrite index_from_snd.
  - apply map_ext. intros [i r]. reflexivity.
Qed.

(** ** C3: clean_infrastructure keeps exactly the rows of 2010 and later *)

(** Claim C3.  The raw columns of clean_infrastructure are, up to order,
    exactly the input rows with year >= 2010 (each once, no others; this
    holds with or without repeated (country, year) pairs); every clean row
    has year >= 2010; and rows before 2010, wherever they sit in the input,
    change nothing in clean_infrastructure, its LAG and RANK columns
    included, hence nothing in the aggregates computed from it. *)
Theorem clean_rows_exactly_filtered (raw : list RawRow) :
  Permutation (map base (clean_infrastructure raw)) (year_filter raw) /\
  (forall o, In o (clean_infrastructure raw) -> (2010 <= year (base o))%Z) /\
  (forall l1 old l2, (forall r, In r old -> (year r < 2010)%Z) ->
     clean_infrastructure (l1 ++ old ++ l2) = clean_infrastructure (l1 ++ l2)).
Proof.
  split; [|split].
  - apply clean_base_perm.
  - intros o Ho. apply in_clean_infrastructure in Ho as [i [r [Hin ->]]].
    simpl. assert (Hr : In r (year_filter raw)) by (apply in_indexed_filtered; eauto).
    unfold year_filter in Hr. apply filter_In in Hr as [_ H]. now apply Z.leb_le.
  - intros l1 old l2 Hold. unfold clean_infrastructure.
    replace (year_filter (l1 ++ old ++ l2)) with (year_filter (l1 ++ l2)); [reflexivity|].
    unfold year_filter. rewrite !filter_app.
    rewrite (filter_all_false _ old); [reflexivity|].
    intros r Hr. specialize (Hold r Hr). apply Z.leb_gt. lia.
Qed.

(** ** DuckDB's STDDEV computes the sample standard deviation *)

Open Scope Q_scope.



Lemma nQ_add n m : nQ (n + m) == nQ n + nQ m.
Proof. unfold nQ. rewrite Nat2Z.inj_add, inject_Z_plus. reflexivity. Qed.





Close Scope Q_scope.

(** ** C4: yearly_trends *)

Lemma in_yearly_trends (clean : list CleanRow) (t : TrendRow) :
  In t (yearly_trends clean) -> t = trend_of (t_year t) clean.
Proof.
  unfold yearly_trends. intros H. apply in_map_iff in H as [y [<- _]]. reflexivity.
Qed.







(** ** C5: top_performers *)

Lemma fold_max_spec (l : list Z) (x : Z) :
  (x <= fold_left Z.max l x)%Z /\
  (forall y, In y l -> (y <= fold_left Z.max l x)%Z) /\
  (fold_left Z.max l x = x \/ In (fold_left Z.max l x) l).
Proof.
  revert x; induction l as [|y t IH]; intros x; simpl; [split; [lia|split; auto; contradiction]|].
  destruct (IH (Z.max x y)) as [H1 [H2 H3]].
  split; [lia|split].
  - intros z [<-|Hz]; [lia|auto].
  - destruct H3 as [H3|H3]; [|auto].
    rewrite H3. destruct (Z.max_spec x y) as [[_ ->]|[_ ->]]; auto.
Qed.

Lemma max_year_spec (clean : list CleanRow) (m : Z) :
  max_year clean = Some m ->
  (forall o, In o clean -> (year (base o) <= m)%Z) /\
  exists o, In o clean /\ year (base o) = m.
Proof.
  unfold max_year. destruct (map (fun o => year (base o)) clean) as [|y ys] eqn:E;
    [discriminate|].
  intros H; injection H as <-. unfold zmax_list.
  destruct (fold_max_spec ys y) as [H1 [H2 H3]].
  split.
  - intros o Ho. assert (Hin : In (year (base o)) (y :: ys))
      by (rewrite <- E; now apply (in_map (fun o => year (base o)))).
    destruct Hin as [<-|Hin]; auto.
  - assert (Hin : In (fold_left Z.max ys y) (map (fun o => year (base o)) clean))
      by (rewrite E; destruct H3 as [->|H3]; simpl; auto).
    apply in_map_iff in Hin as [o [Ho Hin]]. eauto.
Qed.

Lemma in_firstn {A} n (l : list A) x : In x (firstn n l) -> In x l.
Proof. intros H. rewrite <- (firstn_skipn n l). apply in_or_app; auto. Qed.

(** Claim C5.  The top_performers view has at most 10 rows, is ordered by
    [latest_score] descending (NULLs last), and every row joins a
    country_summary row with the clean row of the same country at the
    latest year of clean_infrastructure, that year being recomputed as
    [MAX(year)] of the given table. *)
Theorem top_performers_view (summary : list SummaryRow) (clean : list CleanRow) :
  List.length (top_performers summary clean) <= 10 /\
  Sorted (fun a b => score_desc_le (latest_score a) (latest_score b) = true)
         (top_performers summary clean) /\
  (forall tr, In tr (top_performers summary clean) ->
     exists c ci, In c summary /\ In ci clean /\ s_country c = country (base ci) /\
       max_year clean = Some (year (base ci)) /\
       (forall o, In o clean -> (year (base o) <= year (base ci))%Z) /\
       tr = {| top_country := s_country c; top_avg_score := avg_score c;
               top_score_improvement := score_improvement c;
               latest_score := infrastructure_score (base ci);
               latest_rank := yearly_rank ci |}).
Proof.
  unfold top_performers. destruct (max_year clean) as [m|] eqn:Em.
  - split; [|split].
    + rewrite length_firstn. lia.
    + apply Sorted_firstn, sort_by_sorted. intros a b; apply score_desc_le_total.
    + intros tr Htr. apply in_firstn, in_sort_by in Htr.
      unfold top_join in Htr. apply in_flat_map in Htr as [c [Hc Htr]].
      apply in_flat_map in Htr as [ci [Hci Htr]].
      destruct (String.eqb (s_country c) (country (base ci)) && (year (base ci) =? m)%Z)
        eqn:Eb; [|contradiction].
      apply andb_true_iff in Eb as [E1 E2].
      apply String.eqb_eq in E1. apply Z.eqb_eq in E2. subst m.
      destruct Htr as [<-|[]].
      exists c, ci. repeat split; auto. now apply max_year_spec.
  - simpl. repeat split; auto; [lia|contradiction].
Qed.

(** ** C6: the duplicates quality check *)

Lemma length_filter_dec_count (k : string * Z) (L : list (string * Z)) :
  List.length (filter (fun y => if key_dec k y then true else false) L) =
  count_occ key_dec L k.
Proof.
  induction L as [|y t IH]; simpl; auto.
  destruct (key_dec k y) as [->|Hne]; simpl.
  - destruct (key_dec y y); [|congruence]. now f_equal.
  - destruct (key_dec y k); [congruence|auto].
Qed.

Lemma dup_count_one_injected (l1 l2 : list CleanRow) (d : CleanRow) :
  NoDup (map row_key (l1 ++ l2)) -> In (row_key d) (map row_key (l1 ++ l2)) ->
  dup_count (l1 ++ d :: l2) = 1.
Proof.
  intros Hnd Hin. unfold dup_count.
  set (k := row_key d). set (K := map row_key (l1 ++ d :: l2)).
  assert (Hocc : forall x, count_occ key_dec K x =
                           count_occ key_dec (map row_key (l1 ++ l2)) x +
                           (if key_dec k x then 1 else 0)).
  { intros x. unfold K. rewrite !map_app, !count_occ_app. cbn [map count_occ].
    fold k. destruct (key_dec k x); lia. }
  assert (Hle : forall x, count_occ key_dec (map row_key (l1 ++ l2)) x <= 1)
    by (apply NoDup_count_occ; exact Hnd).
  assert (Hk : count_occ key_dec (map row_key (l1 ++ l2)) k = 1).
  { pose proof (proj1 (count_occ_In key_dec _ k) Hin). specialize (Hle k). lia. }
  rewrite (filter_ext (fun x => (1 <? count_occ key_dec K x)%nat)
                      (fun x => if key_dec k x then true else false)).
  - rewrite length_filter_dec_count.
    apply (NoDup_count_occ' key_dec). apply NoDup_nodup.
    apply nodup_In. unfold K. rewrite map_app. simpl. apply in_or_app. right; left; reflexivity.
  - intros x. rewrite Hocc. destruct (key_dec k x) as [<-|Hne].
    + rewrite Hk. reflexivity.
    + specialize (Hle x). apply Nat.ltb_ge. lia.
Qed.

(** Claim C6.  The duplicates check passes exactly when no (country, year)
    group has more than one row; after one row repeating the key of
    another is injected into a table without repeated keys, that count is
    1, the check fails and its details read ["Found 1 duplicate records"],
    which contains ["1"]; with no NULL score and no repeated key the report
    has [all_passed = true], [all_passed] being the AND of the checks. *)
Theorem duplicates_check_report :
  (forall clean ck, In ck (quality_checks clean) -> check ck = "duplicates"%string ->
     (passed ck = true <-> dup_count clean = 0)) /\
  (forall l1 d l2, NoDup (map row_key (l1 ++ l2)) -> In (row_key d) (map row_key (l1 ++ l2)) ->
     dup_count (l1 ++ d :: l2) = 1 /\
     forall ck, In ck (quality_checks (l1 ++ d :: l2)) -> check ck = "duplicates"%string ->
       passed ck = false /\ details ck = "Found 1 duplicate records"%string /\
       contains "1" (details ck) = true) /\
  (forall now clean,
     all_passed (quality_report now clean) = forallb passed (checks (quality_report now clean))) /\
  (forall now clean, null_count clean = 0 -> dup_count clean = 0 ->
     all_passed (quality_report now clean) = true).
Proof.
  split; [|split; [|split]].
  - intros clean ck Hck Hname. simpl in Hck.
    destruct Hck as [<-|[<-|[]]]; [discriminate|]. simpl. apply Nat.eqb_eq.
  - intros l1 d l2 Hnd Hin. pose proof (dup_count_one_injected l1 l2 d Hnd Hin) as H1.
    split; [exact H1|]. intros ck Hck Hname. simpl in Hck.
    destruct Hck as [<-|[<-|[]]]; [discriminate|]. simpl. rewrite H1. auto.
  - reflexivity.
  - intros now clean Hn Hd. unfold quality_report, quality_checks. simpl.
    now rewrite Hn, Hd.
Qed.

(** ** The driver *)

(** A computation that leaves the number of [close] calls unchanged. *)
Definition keeps_closes {A} (m : M A) : Prop := forall w, closes (snd (m w)) = closes w.

Lemma bind_keeps {A B} (m : M A) (k : A -> M B) :
  keeps_closes m -> (forall a, keeps_closes (k a)) -> keeps_closes (bind m k).
Proof.
  intros Hm Hk w. unfold bind. specialize (Hm w).
  destruct (m w) as [[a|e] w']; simpl in *; [rewrite Hk|]; auto.
Qed.

Lemma ret_keeps {A} (a : A) : keeps_closes (ret a).
Proof. intros w; reflexivity. Qed.

Lemma raise_keeps {A} (e : Exc) : keeps_closes (@raise A e).
Proof. intros w; reflexivity. Qed.

Lemma get_keeps : keeps_closes get.
Proof. intros w; reflexivity. Qed.

Lemma modify_keeps (f : World -> World) :
  (forall w, closes (f w) = closes w) -> keeps_closes (modify f).
Proof. intros H w. apply H. Qed.

Ltac keeps_tac :=
  repeat first
    [ apply bind_keeps; intros
    | apply ret_keeps | apply raise_keeps | apply get_keeps
    | apply modify_keeps; intros; reflexivity
    | progress unfold enter, need_conn, write_files
    | match goal with |- keeps_closes (match ?x with _ => _ end) => destruct x end ].

Lemma stages_keep_closes :
  keeps_closes (extract ;;; transform ;;; load ;;; create_analytics_views ;;;
                run_quality_checks ;;; ret true).
Proof.
  unfold extract, transform, load, create_analytics_views, run_quality_checks.
  keeps_tac.
Qed.

(** ** C9: the connection is closed exactly once per run *)

(** Claim C9.  On every exit of [run_pipeline] (success, a stage raising an
    [Exception], or a [KeyboardInterrupt] escaping from any stage) the
    DuckDB connection is closed afterwards, [close] having been called
    exactly once during the run, as the last logged event. *)
Theorem run_pipeline_closes_once (w : World) :
  conn_open (snd (run_pipeline w)) = false /\
  closes (snd (run_pipeline w)) = S (closes w) /\
  exists pre, log (snd (run_pipeline w)) = pre ++ [ConnectionClosed].
Proof.
  pose proof (stages_keep_closes w) as Hk.
  unfold run_pipeline.
  destruct ((extract ;;; transform ;;; load ;;; create_analytics_views ;;;
             run_quality_checks ;;; ret true) w) as [[b|e] w1].
  - simpl in Hk |- *. repeat split; [congruence|eauto].
  - destruct (is_Exception e); simpl in Hk |- *; repeat split; try congruence; eauto.
Qed.

(** ** C7: quality failures do not fail the run *)

(** Claim C7.  On a structurally sound run (connection open, no interrupt,
    output directory writable, raw rows available), [run_pipeline] returns
    [True] and writes [quality_report.json] holding the report of the
    checks over the clean rows, whatever [all_passed] is. *)
Theorem quality_failure_non_fatal (w : World) (rows : list RawRow)
  (Hc : conn_open w = true) (Hi : interrupt_at w = None)
  (Hw : out_writable w = true) (Hr : input_rows w = Some rows) :
  fst (run_pipeline w) = Ret true /\
  report (snd (run_pipeline w)) = Some (quality_report (clock w) (clean_infrastructure rows)) /\
  In "quality_report.json"%string (writes (snd (run_pipeline w))).
Proof.
  destruct w as [[craw cc cs ct cv] conn cl csv wr ws rep clk intr lg].
  simpl in *. subst conn intr wr. unfold input_rows in Hr. simpl in Hr.
  destruct csv as [rows'|].
  - injection Hr as ->. split; [reflexivity|split; [reflexivity|]].
    simpl. rewrite <- !app_assoc. apply in_or_app; right. simpl; tauto.
  - subst craw. split; [reflexivity|split; [reflexivity|]].
    simpl. rewrite <- !app_assoc. apply in_or_app; right. simpl; tauto.
Qed.

(** On the repeated key of [dup_raw] the duplicates check fails, and the
    run still reports success. *)
Lemma quality_failure_non_fatal_witness :
  all_passed (quality_report 0 (clean_infrastructure dup_raw)) = false /\
  fst (run_pipeline (fresh_world (Some dup_raw))) = Ret true /\
  report (snd (run_pipeline (fresh_world (Some dup_raw)))) =
    Some (quality_report 0 (clean_infrastructure dup_raw)).
Proof.
  destruct (quality_failure_non_fatal (fresh_world (Some dup_raw)) dup_raw)
    as [H1 [H2 _]]; try reflexivity.
  split; [vm_compute; reflexivity|]. split; [exact H1|exact H2].
Defined.

(** ** C8: a missing raw file *)

(** Claim C8, as the code has it.  When the raw CSV is absent and the
    database holds no [raw_infrastructure] table (a fresh connection, no
    interrupt), Extract succeeds, Transform raises the missing-table error,
    the run returns [False] after closing the connection, Load, Views and
    Quality never start, and no output file or quality report is written. *)
Theorem missing_input_fails_at_transform (w : World)
  (Hcsv : raw_csv w = None) (Hraw : raw_infrastructure (catalog w) = None)
  (Hc : conn_open w = true) (Hi : interrupt_at w = None) :
  fst (extract w) = Ret true /\
  fst (run_pipeline w) = Ret false /\
  writes (snd (run_pipeline w)) = writes w /\
  report (snd (run_pipeline w)) = report w /\
  log (snd (run_pipeline w)) =
    log w ++ [StageStarted Extract; StageStarted Transform;
              PipelineFailed (CatalogException "raw_infrastructure"); ConnectionClosed].
Proof.
  destruct w as [[craw cc cs ct cv] conn cl csv wr ws rep clk intr lg].
  simpl in *. subst. repeat split; try reflexivity.
  simpl. rewrite <- !app_assoc. reflexivity.
Qed.

Lemma missing_input_fails_at_transform_witness :
  fst (run_pipeline (fresh_world None)) = Ret false /\
  writes (snd (run_pipeline (fresh_world None))) = [].
Proof.
  destruct (missing_input_fails_at_transform (fresh_world None))
    as [_ [H1 [H2 _]]]; try reflexivity.
  split; [exact H1|exact H2].
Defined.

(** Claim C8 fails as stated: the database file persists between runs, so
    with the CSV missing but [raw_infrastructure] left by an earlier run,
    the run succeeds on the stale table and writes every output file. *)
Lemma missing_input_stale_table_counterexample :
  raw_csv stale_world = None /\
  fst (run_pipeline stale_world) = Ret true /\
  writes (snd (run_pipeline stale_world)) =
    ["clean_infrastructure.parquet"; "clean_infrastructure.csv";
     "country_summary.parquet"; "country_summary.csv";
     "yearly_trends.parquet"; "yearly_trends.csv"; "pipeline_metadata.json";
     "top_performers.csv"; "quality_report.json"]%string.
Proof. split; [reflexivity | split; vm_compute; reflexivity]. Qed.

(** ** C10: avg_yearly_change of a country without any change *)

Lemma somes_all_none (l : list (option Q)) : (forall x, In x l -> x = None) -> somes l = [].
Proof.
  induction l as [|x t IH]; simpl; intros H; auto.
  rewrite (H x (or_introl eq_refl)). apply IH; auto.
Qed.

Lemma in_country_summary (clean : list CleanRow) (s : SummaryRow) :
  In s (country_summary clean) -> s = summary_of (s_country s) clean.
Proof.
  unfold country_summary. intros H. apply in_map_iff in H as [c [<- _]]. reflexivity.
Qed.

Lemma avg_change_none_of_all_none (clean : list CleanRow) (s : SummaryRow) :
  In s (country_summary clean) ->
  (forall o, In o clean -> country (base o) = s_country s -> score_change o = None) ->
  avg_yearly_change s = None.
Proof.
  intros Hs Hall. rewrite (in_country_summary clean s Hs). simpl.
  unfold sql_avg. rewrite somes_all_none; [reflexivity|].
  intros x Hx. apply in_map_iff in Hx as [o [<- Ho]].
  apply filter_In in Ho as [Ho Hc]. apply String.eqb_eq in Hc. auto.
Qed.

Lemma single_row_no_change (raw : list RawRow) (o : CleanRow) :
  In o (clean_infrastructure raw) ->
  List.length (filter (fun r => String.eqb (country r) (country (base o))) (year_filter raw)) = 1 ->
  score_change o = None.
Proof.
  intros Ho H1.
  apply in_clean_infrastructure in Ho as [i [r [Hin ->]]].
  cbn [clean_row base score_change] in *. unfold score_change_at.
  set (ix := indexed (year_filter raw)) in *.
  assert (Hlen : List.length (sort_by year_le
                   (filter (fun p => String.eqb (country (snd p)) (country r)) ix)) = 1).
  { rewrite (Permutation_length (sort_by_perm _ _)).
    rewrite (length_filter_snd (fun r0 => String.eqb (country r0) (country r))).
    unfold ix, indexed. now rewrite index_from_snd. }
  assert (Hinp : In (i, r) (sort_by year_le
                   (filter (fun p => String.eqb (country (snd p)) (country r)) ix)))
    by (apply in_country_part; auto).
  destruct (sort_by year_le _) as [|x [|y t]]; simpl in Hlen; try discriminate.
  destruct Hinp as [->|[]]. simpl. now rewrite Nat.eqb_refl.
Qed.

Lemma somes_some (l : list (option Q)) (d : Q) : In (Some d) l -> somes l <> [].
Proof.
  induction l as [|x t IH]; simpl; [contradiction|].
  intros [->|H]; [discriminate|]. destruct x; [discriminate|]. exact (IH H).
Qed.

Lemma two_rows_change (raw : list RawRow) (c : string) :
  2 <= List.length (filter (fun r => String.eqb (country r) c) (year_filter raw)) ->
  (forall r, In r (year_filter raw) -> country r = c -> infrastructure_score r <> None) ->
  exists o, In o (clean_infrastructure raw) /\ country (base o) = c /\ score_change o <> None.
Proof.
  intros H2 Hs.
  remember (sort_by year_le (filter (fun p => String.eqb (country (snd p)) c)
                                    (indexed (year_filter raw)))) as P eqn:EP.
  assert (Hin : forall q, In q P <-> In q (indexed (year_filter raw)) /\ country (snd q) = c)
    by (intros q; rewrite EP; apply in_country_part).
  assert (Hnd : NoDup (map fst P)) by (rewrite EP; apply country_part_nodup_idx).
  assert (Hlen : 2 <= List.length P).
  { rewrite EP, (Permutation_length (sort_by_perm _ _)).
    rewrite (length_filter_snd (fun r0 => String.eqb (country r0) c)).
    unfold indexed. rewrite index_from_snd. exact H2. }
  destruct P as [|[i1 r1] [|[i2 r2] rest]]; simpl in Hlen; try lia.
  destruct (proj1 (Hin (i1, r1)) (or_introl eq_refl)) as [Hix1 Hc1].
  destruct (proj1 (Hin (i2, r2)) (or_intror (or_introl eq_refl))) as [Hix2 Hc2].
  simpl in Hc1, Hc2.
  assert (Hne : i1 <> i2).
  { simpl in Hnd. inversion Hnd as [|? ? Hn _]. intros ->. apply Hn. left; reflexivity. }
  assert (Hr1 : In r1 (year_filter raw)) by (apply in_indexed_filtered; eauto).
  assert (Hr2 : In r2 (year_filter raw)) by (apply in_indexed_filtered; eauto).
  exists (clean_row (indexed (year_filter raw)) (i2, r2)). split; [|split].
  - apply in_clean_infrastructure. exists i2, r2. auto.
  - exact Hc2.
  - cbn [clean_row base score_change]. unfold score_change_at. rewrite Hc2, <- EP.
    cbn [lag_in]. rewrite (proj2 (Nat.eqb_neq i1 i2) Hne), Nat.eqb_refl.
    destruct (infrastructure_score r2) eqn:E2; [|exfalso; exact (Hs r2 Hr2 Hc2 E2)].
    destruct (infrastructure_score r1) eqn:E1; [|exfalso; exact (Hs r1 Hr1 Hc1 E1)].
    discriminate.
Qed.

(** Claim C10, as the code has it.  A country all of whose clean rows have
    a NULL [score_change] gets a NULL [avg_yearly_change]; so does, in
    particular, any country with exactly one row with year >= 2010.  A
    country with two or more rows with year >= 2010, all with a non-NULL
    score (for instance a single year holding a duplicated record), gets a
    non-NULL [avg_yearly_change]: the second row of its partition has the
    first as its LAG. *)
Theorem avg_yearly_change_null (raw : list RawRow) :
  (forall s, In s (country_summary (clean_infrastructure raw)) ->
     (forall o, In o (clean_infrastructure raw) -> country (base o) = s_country s ->
                score_change o = None) ->
     avg_yearly_change s = None) /\
  (forall s, In s (country_summary (clean_infrastructure raw)) ->
     List.length (filter (fun r => String.eqb (country r) (s_country s)) (year_filter raw)) = 1 ->
     avg_yearly_change s = None) /\
  (forall s, In s (country_summary (clean_infrastructure raw)) ->
     2 <= List.length (filter (fun r => String.eqb (country r) (s_country s)) (year_filter raw)) ->
     (forall r, In r (year_filter raw) -> country r = s_country s ->
                infrastructure_score r <> None) ->
     avg_yearly_change s <> None).
Proof.
  split; [|split].
  - intros s Hs Hall. exact (avg_change_none_of_all_none _ s Hs Hall).
  - intros s Hs H1. apply (avg_change_none_of_all_none _ s Hs).
    intros o Ho Hc. apply (single_row_no_change raw o Ho). now rewrite Hc.
  - intros s Hs H2 Hsc.
    destruct (two_rows_change raw (s_country s) H2 Hsc) as [o [Ho [Hc Hch]]].
    rewrite (in_country_summary _ s Hs). simpl. unfold sql_avg.
    destruct (score_change o) as [d|] eqn:Ed; [|contradiction].
    assert (Hin : In (Some d) (map score_change
                   (filter (fun o => String.eqb (country (base o)) (s_country s))
                           (clean_infrastructure raw)))).
    { apply in_map_iff. exists o. split; [exact Ed|].
      apply filter_In. split; [exact Ho|]. apply String.eqb_eq. exact Hc. }
    pose proof (somes_some _ d Hin) as Hne.
    destruct (somes _); [contradiction|discriminate].
Qed.

(** Claim C10's "in particular" fails: country A has the single year 2015
    but two rows for it, and the second row's LAG is the first, so its
    average yearly change is not NULL. *)
Lemma avg_yearly_change_one_year_counterexample :
  nodup Z.eq_dec (map year (filter (fun r => String.eqb (country r) "A") (year_filter dup_raw)))
    = [2015%Z] /\
  In (nth 0 (country_summary (clean_infrastructure dup_raw)) (summary_of "" []))
     (country_summary (clean_infrastructure dup_raw)) /\
  s_country (nth 0 (country_summary (clean_infrastructure dup_raw)) (summary_of "" [])) = "A"%string /\
  avg_yearly_change (nth 0 (country_summary (clean_infrastructure dup_raw)) (summary_of "" []))
    <> None.
Proof.
  split; [vm_compute; reflexivity|split; [in_list|split; [vm_compute; reflexivity|]]].
  vm_compute. discriminate.
Qed.

(* ================================================================== *)
(** * Further properties of the pipeline *)

(** ** Helpers on lists and aggregates *)

Lemma perm_filter {A} (f : A -> bool) (l l' : list A) :
  Permutation l l' -> Permutation (filter f l) (filter f l').
Proof.
  induction 1 as [|x l l' _ IH|x y l|l l' l'' _ IH1 _ IH2]; simpl.
  - constructor.
  - destruct (f x); [apply perm_skip|]; exact IH.
  - destruct (f x), (f y); try constructor; apply Permutation_refl.
  - eapply perm_trans; eassumption.
Qed.

Lemma filter_keeps_all {A} (f : A -> bool) (l : list A) :
  (forall y, In y l -> f y = true) -> filter f l = l.
Proof.
  induction l as [|x t IH]; simpl; intros H; auto.
  rewrite (H x (or_introl eq_refl)). f_equal. apply IH. auto.
Qed.

Lemma nodup_length_perm {A} (dec : forall x y : A, {x = y} + {x <> y}) (l l' : list A) :
  Permutation l l' -> List.length (nodup dec l) = List.length (nodup dec l').
Proof.
  intros Hp. apply Permutation_length, NoDup_Permutation; try apply NoDup_nodup.
  intros x. rewrite !nodup_In. split; apply Permutation_in; [|symmetry]; exact Hp.
Qed.

Lemma in_somes (l : list (option Q)) (q : Q) : In q (somes l) <-> In (Some q) l.
Proof.
  induction l as [|[x|] t IH]; simpl; [tauto| |].
  - rewrite IH. split; intros [H|H]; auto; [left; congruence | left; congruence].
  - rewrite IH. split; [auto|]. intros [H|H]; [discriminate|auto].
Qed.

Lemma Qmin_cases (x y : Q) : Qmin x y = x \/ Qmin x y = y.
Proof. unfold Qmin, GenericMinMax.gmin. destruct (x ?= y)%Q; auto. Qed.

Lemma Qmax_cases (x y : Q) : Qmax x y = x \/ Qmax x y = y.
Proof. unfold Qmax, GenericMinMax.gmax. destruct (x ?= y)%Q; auto. Qed.

Lemma fold_Qmin_spec (l : list Q) (x : Q) :
  (fold_left Qmin l x <= x)%Q /\ (forall y, In y l -> (fold_left Qmin l x <= y)%Q) /\
  (fold_left Qmin l x = x \/ In (fold_left Qmin l x) l).
Proof.
  revert x; induction l as [|y t IH]; intros x; simpl.
  - split; [apply Qle_refl|split; [contradiction|auto]].
  - destruct (IH (Qmin x y)) as [H1 [H2 H3]].
    split; [|split].
    + eapply Qle_trans; [exact H1|apply Q.le_min_l].
    + intros z [<-|Hz]; [|auto]. eapply Qle_trans; [exact H1|apply Q.le_min_r].
    + destruct H3 as [H3|H3]; [|auto]. rewrite H3.
      destruct (Qmin_cases x y) as [->| ->]; auto.
Qed.

Lemma fold_Qmax_spec (l : list Q) (x : Q) :
  (x <= fold_left Qmax l x)%Q /\ (forall y, In y l -> (y <= fold_left Qmax l x)%Q) /\
  (fold_left Qmax l x = x \/ In (fold_left Qmax l x) l).
Proof.
  revert x; induction l as [|y t IH]; intros x; simpl.
  - split; [apply Qle_refl|split; [contradiction|auto]].
  - destruct (IH (Qmax x y)) as [H1 [H2 H3]].
    split; [|split].
    + eapply Qle_trans; [apply Q.le_max_l|exact H1].
    + intros z [<-|Hz]; [|auto]. eapply Qle_trans; [apply Q.le_max_r|exact H1].
    + destruct H3 as [H3|H3]; [|auto]. rewrite H3.
      destruct (Qmax_cases x y) as [->| ->]; auto.
Qed.

Lemma sql_min_spec (l : list (option Q)) :
  (sql_min l = None <-> somes l = []) /\
  (forall m, sql_min l = Some m ->
     In (Some m) l /\ forall q, In (Some q) l -> (m <= q)%Q).
Proof.
  unfold sql_min. destruct (somes l) as [|x t] eqn:E.
  - split; [tauto|discriminate].
  - split; [split; discriminate|]. intros m Hm; injection Hm as <-.
    destruct (fold_Qmin_spec t x) as [H1 [H2 H3]].
    split.
    + apply in_somes. rewrite E. destruct H3 as [->|H3]; simpl; auto.
    + intros q Hq. apply in_somes in Hq. rewrite E in Hq.
      destruct Hq as [<-|Hq]; auto.
Qed.

Lemma sql_max_spec (l : list (option Q)) :
  (sql_max l = None <-> somes l = []) /\
  (forall m, sql_max l = Some m ->
     In (Some m) l /\ forall q, In (Some q) l -> (q <= m)%Q).
Proof.
  unfold sql_max. destruct (somes l) as [|x t] eqn:E.
  - split; [tauto|discriminate].
  - split; [split; discriminate|]. intros m Hm; injection Hm as <-.
    destruct (fold_Qmax_spec t x) as [H1 [H2 H3]].
    split.
    + apply in_somes. rewrite E. destruct H3 as [->|H3]; simpl; auto.
    + intros q Hq. apply in_somes in Hq. rewrite E in Hq.
      destruct Hq as [<-|Hq]; auto.
Qed.

Lemma sql_avg_none (l : list (option Q)) : sql_avg l = None <-> somes l = [].
Proof. unfold sql_avg. destruct (somes l); split; congruence. Qed.

Lemma fold_min_spec (l : list Z) (x : Z) :
  (fold_left Z.min l x <= x)%Z /\
  (forall y, In y l -> (fold_left Z.min l x <= y)%Z) /\
  (fold_left Z.min l x = x \/ In (fold_left Z.min l x) l).
Proof.
  revert x; induction l as [|y t IH]; intros x; simpl; [split; [lia|split; auto; contradiction]|].
  destruct (IH (Z.min x y)) as [H1 [H2 H3]].
  split; [lia|split].
  - intros z [<-|Hz]; [lia|auto].
  - destruct H3 as [H3|H3]; [|auto].
    rewrite H3. destruct (Z.min_spec x y) as [[_ ->]|[_ ->]]; auto.
Qed.

Lemma first_peer_pos_lt {A} (peer : A -> bool) (l : list A) (x : A) :
  In x l -> peer x = true -> first_peer_pos peer l < List.length l.
Proof.
  induction l as [|y t IH]; simpl; intros Hx Hp; [contradiction|].
  destruct (peer y) eqn:E; [lia|].
  destruct Hx as [<-|Hx]; [congruence|]. specialize (IH Hx Hp). lia.
Qed.

Lemma score_peer_refl (s : option Q) : score_peer s s = true.
Proof. destruct s; simpl; [apply Qeq_bool_refl|reflexivity]. Qed.

(** ** Extra: clean_infrastructure *)


(** [RANK()] is at least 1 and at most the number of rows of the same
    year, NULL scores included. *)
Theorem yearly_rank_bounds (raw : list RawRow) (o : CleanRow)
  (Ho : In o (clean_infrastructure raw)) :
  1 <= yearly_rank o <=
  List.length (filter (fun r => (year r =? year (base o))%Z) (year_filter raw)).
Proof.
  apply in_clean_infrastructure in Ho as [i [r [Hin ->]]].
  cbn [clean_row base yearly_rank]. unfold rank_at.
  set (ix := indexed (year_filter raw)) in *.
  set (part := sort_by _ (filter (fun p => (year (snd p) =? year r)%Z) ix)).
  assert (Hp : In (i, r) part).
  { unfold part. apply in_sort_by, filter_In. split; [exact Hin|apply Z.eqb_refl]. }
  pose proof (first_peer_pos_lt
    (fun p => score_peer (infrastructure_score (snd p)) (infrastructure_score r))
    part (i, r) Hp (score_peer_refl _)) as Hlt.
  assert (Hlen : List.length part =
                 List.length (filter (fun r0 => (year r0 =? year r)%Z) (year_filter raw))).
  { unfold part. rewrite (Permutation_length (sort_by_perm _ _)).
    rewrite (length_filter_snd (fun r0 => (year r0 =? year r)%Z)).
    unfold ix, indexed. now rewrite index_from_snd. }
  lia.
Qed.

Lemma yearly_rank_bounds_witness :
  In (nth 4 (clean_infrastructure sample_raw) dummy_clean) (clean_infrastructure sample_raw) /\
  1 <= yearly_rank (nth 4 (clean_infrastructure sample_raw) dummy_clean) <= 3.
Proof.
  assert (H : In (nth 4 (clean_infrastructure sample_raw) dummy_clean) (clean_infrastructure sample_raw))
    by (apply nth_In; vm_compute; lia).
  split; [exact H|].
  pose proof (yearly_rank_bounds sample_raw _ H) as Hb. vm_compute in Hb |- *. lia.
Defined.

(** ** Helpers on the GROUP BY tables *)

Lemma somes_nil_iff (l : list (option Q)) : somes l = [] <-> forall q, ~ In (Some q) l.
Proof.
  split.
  - intros H q Hq. apply in_somes in Hq. rewrite H in Hq. destruct Hq.
  - intros H. destruct (somes l) as [|q t] eqn:E; [reflexivity|].
    exfalso. apply (H q). apply in_somes. rewrite E. left; reflexivity.
Qed.

Lemma zlist_bounds (ys : list Z) :
  ys <> [] ->
  In (zmin_list (hd 0%Z ys) ys) ys /\ In (zmax_list (hd 0%Z ys) ys) ys /\
  forall y, In y ys -> (zmin_list (hd 0%Z ys) ys <= y <= zmax_list (hd 0%Z ys) ys)%Z.
Proof.
  destruct ys as [|y0 t]; [congruence|]. intros _. simpl hd. unfold zmin_list, zmax_list.
  destruct (fold_min_spec (y0 :: t) y0) as [_ [Hlo Hlo']].
  destruct (fold_max_spec (y0 :: t) y0) as [_ [Hhi Hhi']].
  split; [|split].
  - destruct Hlo' as [->|H]; [left; reflexivity|exact H].
  - destruct Hhi' as [->|H]; [left; reflexivity|exact H].
  - intros y Hy. split; auto.
Qed.

Lemma map_s_country (clean : list CleanRow) :
  map s_country (country_summary clean) =
  nodup string_dec (map (fun o => country (base o)) clean).
Proof.
  unfold country_summary. rewrite map_map.
  change (fun c => s_country (summary_of c clean)) with (fun c : string => c).
  apply map_id.
Qed.

Lemma summary_country_present (clean : list CleanRow) (s : SummaryRow) :
  In s (country_summary clean) -> exists o, In o clean /\ country (base o) = s_country s.
Proof.
  intros Hs. assert (Hc : In (s_country s) (map s_country (country_summary clean)))
    by (now apply in_map).
  rewrite map_s_country, nodup_In, in_map_iff in Hc. destruct Hc as [o [Ho Hin]]. eauto.
Qed.

Lemma summary_group_perm (raw : list RawRow) (c : string) :
  Permutation (map base (filter (fun o => String.eqb (country (base o)) c) (clean_infrastructure raw)))
              (filter (fun r => String.eqb (country r) c) (year_filter raw)).
Proof.
  rewrite <- (filter_map_swap (fun r => String.eqb (country r) c) base).
  apply perm_filter, clean_base_perm.
Qed.

Lemma in_clean_scores (c : string) (clean : list CleanRow) (q : Q) :
  In (Some q) (clean_scores (filter (fun o => String.eqb (country (base o)) c) clean)) <->
  exists o, In o clean /\ country (base o) = c /\ infrastructure_score (base o) = Some q.
Proof.
  unfold clean_scores. rewrite in_map_iff. split.
  - intros [o [Hq Ho]]. apply filter_In in Ho as [Ho Hc]. apply String.eqb_eq in Hc. eauto.
  - intros [o [Ho [Hc Hq]]]. exists o. split; [exact Hq|].
    apply filter_In. split; [exact Ho|]. now apply String.eqb_eq.
Qed.

Lemma sql_min_max_none (l : list (option Q)) : sql_min l = None <-> sql_max l = None.
Proof. rewrite (proj1 (sql_min_spec l)), (proj1 (sql_max_spec l)). tauto. Qed.

Lemma map_t_year (clean : list CleanRow) :
  map t_year (yearly_trends clean) =
  sort_by Z.leb (nodup Z.eq_dec (map (fun o => year (base o)) clean)).
Proof.
  unfold yearly_trends. rewrite map_map.
  change (fun y => t_year (trend_of y clean)) with (fun y : Z => y).
  apply map_id.
Qed.

(** ** Extra: country_summary *)

(** On the pipeline's table, [num_years] counts the country's rows with
    year >= 2010, and [first_year] and [last_year] are the earliest and
    latest of their years, both at least 2010. *)
Theorem country_summary_years (raw : list RawRow) (s : SummaryRow)
  (Hs : In s (country_summary (clean_infrastructure raw))) :
  let rows := filter (fun r => String.eqb (country r) (s_country s)) (year_filter raw) in
  num_years s = List.length rows /\ 1 <= num_years s /\
  (2010 <= first_year s <= last_year s)%Z /\
  (forall r, In r rows -> (first_year s <= year r <= last_year s)%Z) /\
  (exists r, In r rows /\ year r = first_year s) /\
  (exists r, In r rows /\ year r = last_year s).
Proof.
  intros rows.
  set (clean := clean_infrastructure raw) in *.
  set (c := s_country s) in *.
  pose proof (in_country_summary clean s Hs) as Es.
  destruct (summary_country_present clean s Hs) as [o [Ho Hoc]].
  set (g := filter (fun o => String.eqb (country (base o)) c) clean).
  set (ys := map (fun o => year (base o)) g).
  assert (Ef : first_year s = zmin_list (hd 0%Z ys) ys) by (rewrite Es; reflexivity).
  assert (El : last_year s = zmax_list (hd 0%Z ys) ys) by (rewrite Es; reflexivity).
  assert (En : num_years s = List.length g) by (rewrite Es; reflexivity).
  assert (Hperm : Permutation (map base g) rows) by apply summary_group_perm.
  assert (Hog : In o g) by (apply filter_In; split; [exact Ho|now apply String.eqb_eq]).
  assert (Hys : forall y, In y ys <-> exists r, In r rows /\ year r = y).
  { intros y. unfold ys. rewrite <- (map_map base year), in_map_iff. split.
    - intros [r [Hr Hin]]. exists r. split; [|exact Hr]. eapply Permutation_in; eauto.
    - intros [r [Hin Hr]]. exists r. split; [exact Hr|].
      eapply Permutation_in; [symmetry; exact Hperm|exact Hin]. }
  assert (Hne : ys <> []).
  { intros E. assert (Hin : In (year (base o)) ys) by (now apply (in_map (fun o => year (base o)))).
    rewrite E in Hin. destruct Hin. }
  destruct (zlist_bounds ys Hne) as [Hlo [Hhi Hb]].
  rewrite <- Ef, <- El in *.
  assert (Hrows : forall r, In r rows -> (2010 <= year r)%Z).
  { intros r Hr. unfold rows in Hr. apply filter_In in Hr as [Hr _].
    unfold year_filter in Hr. apply filter_In in Hr as [_ Hr]. now apply Z.leb_le. }
  assert (Hlen : num_years s = List.length rows).
  { rewrite En, <- (length_map base g). now apply Permutation_length. }
  split; [exact Hlen|split; [|split; [|split; [|split]]]].
  - rewrite En. destruct g; [contradiction|simpl; lia].
  - destruct (proj1 (Hys _) Hlo) as [r [Hr Hy]].
    specialize (Hb _ Hhi). specialize (Hrows r Hr). lia.
  - intros r Hr. apply Hb, Hys. eauto.
  - now apply Hys.
  - now apply Hys.
Qed.

Lemma country_summary_years_witness :
  In (nth 0 (country_summary (clean_infrastructure sample_raw)) (summary_of "" []))
     (country_summary (clean_infrastructure sample_raw)) /\
  1 <= num_years (nth 0 (country_summary (clean_infrastructure sample_raw)) (summary_of "" [])).
Proof.
  assert (H : In (nth 0 (country_summary (clean_infrastructure sample_raw)) (summary_of "" []))
                 (country_summary (clean_infrastructure sample_raw)))
    by (apply nth_In; vm_compute; lia).
  split; [exact H|]. exact (proj1 (proj2 (country_summary_years sample_raw _ H))).
Defined.

(** [MIN] and [MAX] of a country are scores of that country, below and
    above all of its non-NULL scores; they are NULL exactly when every
    score of the country is NULL. *)
Theorem country_summary_extremes (clean : list CleanRow) (s : SummaryRow)
  (Hs : In s (country_summary clean)) :
  let has_score q := exists o, In o clean /\ country (base o) = s_country s /\
                               infrastructure_score (base o) = Some q in
  (forall mx, max_score s = Some mx -> has_score mx /\ forall q, has_score q -> (q <= mx)%Q) /\
  (forall mn, min_score s = Some mn -> has_score mn /\ forall q, has_score q -> (mn <= q)%Q) /\
  (max_score s = None <-> forall q, ~ has_score q) /\
  (min_score s = None <-> forall q, ~ has_score q).
Proof.
  intros has_score.
  pose proof (in_country_summary clean s Hs) as Es.
  set (L := clean_scores (filter (fun o => String.eqb (country (base o)) (s_country s)) clean)).
  assert (Emx : max_score s = sql_max L) by (rewrite Es; reflexivity).
  assert (Emn : min_score s = sql_min L) by (rewrite Es; reflexivity).
  assert (HL : forall q, In (Some q) L <-> has_score q) by (intros q; apply in_clean_scores).
  rewrite Emx, Emn.
  split; [|split; [|split]].
  - intros mx Hmx. destruct (proj2 (sql_max_spec L) mx Hmx) as [Hin Hle].
    split; [now apply HL|]. intros q Hq. apply Hle, HL, Hq.
  - intros mn Hmn. destruct (proj2 (sql_min_spec L) mn Hmn) as [Hin Hle].
    split; [now apply HL|]. intros q Hq. apply Hle, HL, Hq.
  - rewrite (proj1 (sql_max_spec L)), somes_nil_iff.
    split; intros H q Hq; apply (H q); apply HL; exact Hq.
  - rewrite (proj1 (sql_min_spec L)), somes_nil_iff.
    split; intros H q Hq; apply (H q); apply HL; exact Hq.
Qed.

Lemma country_summary_extremes_witness :
  In (nth 0 (country_summary (clean_infrastructure sample_raw)) (summary_of "" []))
     (country_summary (clean_infrastructure sample_raw)) /\
  max_score (nth 0 (country_summary (clean_infrastructure sample_raw)) (summary_of "" [])) = Some 7%Q /\
  forall o q, In o (clean_infrastructure sample_raw) -> country (base o) = "A"%string ->
    infrastructure_score (base o) = Some q -> (q <= 7)%Q.
Proof.
  assert (H : In (nth 0 (country_summary (clean_infrastructure sample_raw)) (summary_of "" []))
                 (country_summary (clean_infrastructure sample_raw)))
    by (apply nth_In; vm_compute; lia).
  assert (E : max_score (nth 0 (country_summary (clean_infrastructure sample_raw)) (summary_of "" []))
              = Some 7%Q) by (vm_compute; reflexivity).
  split; [exact H|split; [exact E|]].
  destruct (country_summary_extremes _ _ H) as [Hmx _].
  intros o q Ho Hc Hq. apply (proj2 (Hmx _ E)). exists o. split; [exact Ho|split; [|exact Hq]].
  rewrite Hc. vm_compute. reflexivity.
Defined.

(** [score_improvement = MAX - MIN] is never negative, and is NULL exactly
    when the country has no non-NULL score; [avg_score] is NULL in the same
    case. *)
Theorem country_summary_improvement (clean : list CleanRow) (s : SummaryRow)
  (Hs : In s (country_summary clean)) :
  (score_improvement s = None <-> max_score s = None) /\
  (forall d, score_improvement s = Some d -> (0 <= d)%Q) /\
  (avg_score s = None <-> max_score s = None).
Proof.
  pose proof (in_country_summary clean s Hs) as Es.
  set (L := clean_scores (filter (fun o => String.eqb (country (base o)) (s_country s)) clean)).
  assert (Emx : max_score s = sql_max L) by (rewrite Es; reflexivity).
  assert (Eav : avg_score s = sql_avg L) by (rewrite Es; reflexivity).
  assert (Eim : score_improvement s = sql_sub (sql_max L) (sql_min L))
    by (rewrite Es; reflexivity).
  rewrite Emx, Eav, Eim.
  pose proof (sql_min_max_none L) as Hmm.
  split; [|split].
  - destruct (sql_max L), (sql_min L); simpl; intuition discriminate.
  - intros d. destruct (sql_max L) as [mx|] eqn:Emx', (sql_min L) as [mn|] eqn:Emn';
      simpl; try discriminate.
    intros Hd; injection Hd as <-.
    destruct (proj2 (sql_max_spec L) mx Emx') as [Hin _].
    destruct (proj2 (sql_min_spec L) mn Emn') as [_ Hle].
    assert (Hm : (mn <= mx)%Q) by (apply Hle, Hin). lra.
  - rewrite sql_avg_none, (proj1 (sql_max_spec L)). tauto.
Qed.

Lemma country_summary_improvement_witness :
  In (nth 0 (country_summary (clean_infrastructure sample_raw)) (summary_of "" []))
     (country_summary (clean_infrastructure sample_raw)) /\
  score_improvement (nth 0 (country_summary (clean_infrastructure sample_raw)) (summary_of "" []))
    = Some (5 # 1)%Q /\ (0 <= 5 # 1)%Q.
Proof.
  assert (H : In (nth 0 (country_summary (clean_infrastructure sample_raw)) (summary_of "" []))
                 (country_summary (clean_infrastructure sample_raw)))
    by (apply nth_In; vm_compute; lia).
  assert (E : score_improvement (nth 0 (country_summary (clean_infrastructure sample_raw))
                                       (summary_of "" [])) = Some (5 # 1)%Q)
    by (vm_compute; reflexivity).
  split; [exact H|split; [exact E|]].
  exact (proj1 (proj2 (country_summary_improvement _ _ H)) _ E).
Defined.

(** ** Extra: yearly_trends *)

(** Each row of yearly_trends counts at least one country, and its
    average, minimum and maximum are NULL together (when every score of the
    year is NULL). *)
Theorem yearly_trends_bounds (clean : list CleanRow) (t : TrendRow)
  (Ht : In t (yearly_trends clean)) :
  1 <= num_countries t /\
  (global_avg_score t = None <-> t_max_score t = None) /\
  (t_min_score t = None <-> t_max_score t = None).
Proof.
  pose proof (in_yearly_trends clean t Ht) as Et.
  set (g := filter (fun o => (year (base o) =? t_year t)%Z) clean).
  assert (Enc : num_countries t = count_distinct (map (fun o => country (base o)) g))
    by (rewrite Et; reflexivity).
  assert (Eav : global_avg_score t = sql_avg (clean_scores g)) by (rewrite Et; reflexivity).
  assert (Emn : t_min_score t = sql_min (clean_scores g)) by (rewrite Et; reflexivity).
  assert (Emx : t_max_score t = sql_max (clean_scores g)) by (rewrite Et; reflexivity).
  rewrite Eav, Emn, Emx.
  split; [|split].
  - assert (Hy : In (t_year t) (map t_year (yearly_trends clean))) by (now apply in_map).
    rewrite map_t_year, in_sort_by, nodup_In, in_map_iff in Hy.
    destruct Hy as [o [Hy Ho]].
    assert (Hog : In (country (base o)) (nodup string_dec (map (fun o => country (base o)) g))).
    { apply nodup_In, (in_map (fun o => country (base o))), filter_In.
      split; [exact Ho|now apply Z.eqb_eq]. }
    rewrite Enc. unfold count_distinct.
    destruct (nodup string_dec _); [destruct Hog|simpl; lia].
  - rewrite sql_avg_none, (proj1 (sql_max_spec _)). tauto.
  - apply sql_min_max_none.
Qed.

Lemma yearly_trends_bounds_witness :
  In (nth 0 (yearly_trends (clean_infrastructure sample_raw)) dummy_trend)
     (yearly_trends (clean_infrastructure sample_raw)) /\
  1 <= num_countries (nth 0 (yearly_trends (clean_infrastructure sample_raw)) dummy_trend).
Proof.
  assert (H : In (nth 0 (yearly_trends (clean_infrastructure sample_raw)) dummy_trend)
                 (yearly_trends (clean_infrastructure sample_raw)))
    by (apply nth_In; vm_compute; lia).
  split; [exact H|]. exact (proj1 (yearly_trends_bounds _ _ H)).
Defined.

(** ** Extra: run_quality_checks *)

Lemma null_count_zero_iff (clean : list CleanRow) :
  null_count clean = 0 <-> forall o, In o clean -> infrastructure_score (base o) <> None.
Proof.
  unfold null_count. rewrite length_zero_iff_nil. split.
  - intros H o Ho Hn.
    assert (Hf : In o (filter (fun o => match infrastructure_score (base o) with
                                        | None => true | Some _ => false end) clean))
      by (apply filter_In; rewrite Hn; auto).
    rewrite H in Hf. destruct Hf.
  - intros H. apply filter_all_false. intros o Ho.
    destruct (infrastructure_score (base o)) eqn:E; [reflexivity|exfalso; exact (H o Ho E)].
Qed.

Lemma dup_count_zero_iff (clean : list CleanRow) :
  dup_count clean = 0 <-> NoDup (map row_key clean).
Proof.
  unfold dup_count. set (keys := map row_key clean).
  rewrite length_zero_iff_nil, (NoDup_count_occ key_dec). split.
  - intros H k. destruct (in_dec key_dec k keys) as [Hin|Hnin].
    + destruct (Nat.le_gt_cases (count_occ key_dec keys k) 1) as [Hle|Hgt]; [exact Hle|exfalso].
      assert (Hf : In k (filter (fun k => (1 <? count_occ key_dec keys k)%nat)
                                (nodup key_dec keys))).
      { apply filter_In. split; [apply nodup_In; exact Hin|apply Nat.ltb_lt; exact Hgt]. }
      rewrite H in Hf. destruct Hf.
    + apply (count_occ_not_In key_dec) in Hnin. rewrite Hnin. lia.
  - intros H. apply filter_all_false. intros k _. apply Nat.ltb_ge. apply H.
Qed.

Lemma quality_passes_iff (now : nat) (raw : list RawRow) :
  all_passed (quality_report now (clean_infrastructure raw)) = true <->
  NoDup (map raw_key (year_filter raw)) /\
  (forall r, In r (year_filter raw) -> infrastructure_score r <> None).
Proof.
  assert (H1 : (forall o, In o (clean_infrastructure raw) -> infrastructure_score (base o) <> None) <->
               (forall r, In r (year_filter raw) -> infrastructure_score r <> None)).
  { split.
    - intros H r Hr.
      assert (Hm : In r (map base (clean_infrastructure raw)))
        by (eapply Permutation_in; [symmetry; apply clean_base_perm|exact Hr]).
      apply in_map_iff in Hm as [o [<- Ho]]. now apply H.
    - intros H o Ho. apply H. eapply Permutation_in; [apply clean_base_perm|].
      now apply in_map. }
  assert (H2 : NoDup (map row_key (clean_infrastructure raw)) <->
               NoDup (map raw_key (year_filter raw))).
  { replace (map row_key (clean_infrastructure raw))
      with (map raw_key (map base (clean_infrastructure raw))) by (rewrite map_map; reflexivity).
    split; apply Permutation_NoDup; [|symmetry]; apply Permutation_map, clean_base_perm. }
  unfold quality_report, quality_checks. simpl.
  rewrite andb_true_r, andb_true_iff, !Nat.eqb_eq, null_count_zero_iff, dup_count_zero_iff.
  rewrite H1, H2. tauto.
Qed.

(** On the pipeline's table, the quality report passes exactly when the
    rows with year >= 2010 repeat no (country, year) pair and have no NULL
    score. *)
Theorem quality_report_passes_iff (now : nat) (raw : list RawRow) :
  all_passed (quality_report now (clean_infrastructure raw)) = true <->
  NoDup (map raw_key (year_filter raw)) /\
  (forall r, In r (year_filter raw) -> infrastructure_score r <> None).
Proof. apply quality_passes_iff. Qed.

Lemma digits_value_digit (d : nat) (t : string) (v k : nat) :
  d < 10 -> digits_value t = Some (v, k) ->
  digits_value (String (ascii_of_nat (48 + d)) t) = Some (d * 10 ^ k + v, S k).
Proof.
  intros Hd Ht.
  assert (Ha : nat_of_ascii (ascii_of_nat (48 + d)) = 48 + d)
    by (apply nat_ascii_embedding; lia).
  remember (ascii_of_nat (48 + d)) as a eqn:Ea. clear Ea.
  cbn [digits_value]. rewrite Ht, Ha.
  replace ((48 <=? 48 + d) && (48 + d <=? 57)) with true
    by (symmetry; apply andb_true_iff; split; apply Nat.leb_le; lia).
  replace (48 + d - 48) with d by lia. reflexivity.
Qed.

Lemma digits_of_value (f n : nat) (acc : string) (v k : nat) :
  n < f -> digits_value acc = Some (v, k) ->
  exists k', digits_value (digits_of f n acc) = Some (n * 10 ^ k + v, k').
Proof.
  revert n acc v k. induction f as [|f IH]; intros n acc v k Hn Hacc; [lia|].
  cbn [digits_of].
  assert (Hd : n mod 10 < 10) by (apply Nat.mod_upper_bound; lia).
  pose proof (digits_value_digit (n mod 10) acc v k Hd Hacc) as Hacc'.
  remember (String (ascii_of_nat (48 + n mod 10)) acc) as acc' eqn:Ea. clear Ea.
  destruct (n <? 10) eqn:E.
  - exists (S k). rewrite Hacc'. apply Nat.ltb_lt in E. rewrite Nat.mod_small by exact E.
    reflexivity.
  - apply Nat.ltb_ge in E.
    assert (Hq : n / 10 < f) by (assert (n / 10 < n) by (apply Nat.div_lt; lia); lia).
    destruct (IH (n / 10) acc' _ _ Hq Hacc') as [k' Hk'].
    exists k'. rewrite Hk'. do 2 f_equal.
    pose proof (Nat.div_mod_eq n 10) as Hdm.
    rewrite Nat.pow_succ_r'.
    transitivity ((10 * (n / 10) + n mod 10) * 10 ^ k + v); [ring|].
    rewrite <- Hdm. reflexivity.
Qed.

Lemma digits_of_head (f n : nat) (acc : string) :
  n < f -> exists a t, digits_of f n acc = String a t /\ (a = "0"%char -> n = 0 /\ t = acc).
Proof.
  revert n acc. induction f as [|f IH]; intros n acc Hn; [lia|].
  cbn [digits_of].
  assert (Hd : n mod 10 < 10) by (apply Nat.mod_upper_bound; lia).
  assert (Ha0 : nat_of_ascii (ascii_of_nat (48 + n mod 10)) = 48 + n mod 10)
    by (apply nat_ascii_embedding; lia).
  remember (ascii_of_nat (48 + n mod 10)) as c eqn:Ec. clear Ec.
  destruct (n <? 10) eqn:E.
  - exists c, acc. split; [reflexivity|]. intros Ha.
    apply Nat.ltb_lt in E. rewrite Nat.mod_small in Ha0 by exact E.
    rewrite Ha in Ha0. change (nat_of_ascii "0"%char) with 48 in Ha0. split; [lia|reflexivity].
  - apply Nat.ltb_ge in E.
    assert (Hq : n / 10 < f) by (assert (n / 10 < n) by (apply Nat.div_lt; lia); lia).
    destruct (IH (n / 10) (String c acc) Hq) as [a [t [Hd' Ha]]].
    exists a, t. split; [exact Hd'|]. intros H0. destruct (Ha H0) as [Hz _].
    assert (0 < n / 10) by (apply Nat.div_str_pos; lia). lia.
Qed.

(** [str(n)] in the [details] of a check: the decimal digits of [n], read
    back as [n], with no leading zero. *)
Theorem nat_to_string_decimal (n : nat) :
  decimal_value (nat_to_string n) = Some n /\
  exists a t, nat_to_string n = String a t /\ (a = "0"%char -> n = 0 /\ t = EmptyString).
Proof.
  unfold nat_to_string.
  destruct (digits_of_head (S n) n EmptyString) as [a [t [Hd Ha]]]; [lia|].
  destruct (digits_of_value (S n) n EmptyString 0 0) as [k Hk]; [lia|reflexivity|].
  split; [|exists a, t; split; [exact Hd|exact Ha]].
  unfold decimal_value. rewrite Hd.
  change (option_map fst (digits_value (String a t)) = Some n).
  rewrite <- Hd, Hk. simpl. f_equal. lia.
Qed.

(** ** Extra: run_pipeline *)

(** Unfolds the driver and its stages, keeping the queries opaque. *)
Ltac run_cbv :=
  cbv [run_pipeline pipeline_body extract transform load create_analytics_views
       run_quality_checks enter need_conn write_files bind ret raise modify get
       close_conn add_log set_report add_writes set_catalog is_Exception fst snd
       catalog conn_open closes raw_csv out_writable writes report clock interrupt_at log
       raw_infrastructure clean_tbl summary_tbl trends_tbl top_view].

Lemma run_pipeline_success_world (w : World) (rows : list RawRow)
  (Hc : conn_open w = true) (Hi : interrupt_at w = None)
  (Hw : out_writable w = true) (Hr : input_rows w = Some rows) :
  run_pipeline w =
    (Ret true,
     let clean := clean_infrastructure rows in
     {| catalog := {| raw_infrastructure := Some rows; clean_tbl := Some clean;
                      summary_tbl := Some (country_summary clean);
                      trends_tbl := Some (yearly_trends clean);
                      top_view := Some (top_performers (country_summary clean) clean) |};
        conn_open := false; closes := S (closes w); raw_csv := raw_csv w;
        out_writable := true; writes := writes w ++ pipeline_outputs;
        report := Some (quality_report (clock w) clean);
        clock := clock w; interrupt_at := None;
        log := log w ++ [StageStarted Extract; StageStarted Transform; StageDone Transform;
                         StageStarted Load; StageStarted Views; StageStarted Quality;
                         PipelineSucceeded; ConnectionClosed] |}).
Proof.
  destruct w as [[craw cc cs ct cv] conn cl csv wr ws rep clk intr lg].
  simpl in *. subst conn intr wr. unfold input_rows in Hr. simpl in Hr.
  destruct csv as [rows'|]; [injection Hr as ->|subst craw]; run_cbv;
    rewrite <- !app_assoc; reflexivity.
Qed.

(** A complete run writes its nine output files in the order of the code,
    logs the five stages in order, and leaves in the database the raw rows,
    the three tables of [transform] and the top_performers view. *)
Theorem run_pipeline_success_trace (w : World) (rows : list RawRow)
  (Hc : conn_open w = true) (Hi : interrupt_at w = None)
  (Hw : out_writable w = true) (Hr : input_rows w = Some rows) :
  writes (snd (run_pipeline w)) = writes w ++ pipeline_outputs /\
  filter is_stage_start (log (snd (run_pipeline w))) =
    filter is_stage_start (log w) ++ map StageStarted pipeline_stages /\
  (exists pre, log (snd (run_pipeline w)) = pre ++ [PipelineSucceeded; ConnectionClosed]) /\
  catalog (snd (run_pipeline w)) =
    {| raw_infrastructure := Some rows; clean_tbl := Some (clean_infrastructure rows);
       summary_tbl := Some (country_summary (clean_infrastructure rows));
       trends_tbl := Some (yearly_trends (clean_infrastructure rows));
       top_view := Some (top_performers (country_summary (clean_infrastructure rows))
                                        (clean_infrastructure rows)) |}.
Proof.
  rewrite (run_pipeline_success_world w rows Hc Hi Hw Hr). cbn [snd writes log catalog].
  split; [reflexivity|split; [|split; [|reflexivity]]].
  - rewrite filter_app. reflexivity.
  - exists (log w ++ [StageStarted Extract; StageStarted Transform; StageDone Transform;
                       StageStarted Load; StageStarted Views; StageStarted Quality]).
    rewrite <- app_assoc. reflexivity.
Qed.

Lemma run_pipeline_success_trace_witness :
  conn_open (fresh_world (Some sample_raw)) = true /\
  filter is_stage_start (log (snd (run_pipeline (fresh_world (Some sample_raw))))) =
    map StageStarted pipeline_stages.
Proof.
  split; [reflexivity|].
  exact (proj1 (proj2 (run_pipeline_success_trace (fresh_world (Some sample_raw)) sample_raw
                         eq_refl eq_refl eq_refl eq_refl))).
Defined.

Lemma length_clean_infrastructure (rows : list RawRow) :
  List.length (clean_infrastructure rows) = List.length (year_filter rows).
Proof.
  rewrite <- (length_map base). apply Permutation_length, clean_base_perm.
Qed.

Lemma length_country_summary (rows : list RawRow) :
  List.length (country_summary (clean_infrastructure rows)) =
  count_distinct (map country (year_filter rows)).
Proof.
  rewrite <- (length_map s_country), map_s_country. unfold count_distinct.
  rewrite <- (map_map base country). apply nodup_length_perm.
  apply Permutation_map, clean_base_perm.
Qed.

Lemma length_yearly_trends (rows : list RawRow) :
  List.length (yearly_trends (clean_infrastructure rows)) =
  List.length (nodup Z.eq_dec (map year (year_filter rows))).
Proof.
  rewrite <- (length_map t_year), map_t_year.
  rewrite (Permutation_length (sort_by_perm _ _)).
  rewrite <- (map_map base year). apply nodup_length_perm.
  apply Permutation_map, clean_base_perm.
Qed.

(** After a complete run, [pipeline_metadata.json] records the three
    exported tables with their counts: one row per raw row of year >= 2010,
    one per country and one per year among them. *)
Theorem pipeline_metadata_counts (w : World) (rows : list RawRow)
  (Hc : conn_open w = true) (Hi : interrupt_at w = None)
  (Hw : out_writable w = true) (Hr : input_rows w = Some rows) :
  pipeline_metadata (clock w) (catalog (snd (run_pipeline w))) =
    Some {| pipeline_run := clock w; tables_created := tables_to_export;
            record_counts :=
              [("clean_infrastructure"%string, List.length (year_filter rows));
               ("country_summary"%string, count_distinct (map country (year_filter rows)));
               ("yearly_trends"%string,
                  List.length (nodup Z.eq_dec (map year (year_filter rows))))] |}.
Proof.
  rewrite (run_pipeline_success_world w rows Hc Hi Hw Hr).
  rewrite <- length_clean_infrastructure, <- length_country_summary, <- length_yearly_trends.
  reflexivity.
Qed.

Lemma pipeline_metadata_counts_witness :
  input_rows (fresh_world (Some sample_raw)) = Some sample_raw /\
  pipeline_metadata (clock (fresh_world (Some sample_raw)))
    (catalog (snd (run_pipeline (fresh_world (Some sample_raw))))) =
    Some {| pipeline_run := 0; tables_created := tables_to_export;
            record_counts := [("clean_infrastructure"%string, 7);
                              ("country_summary"%string, 4);
                              ("yearly_trends"%string, 4)] |}.
Proof.
  split; [reflexivity|].
  rewrite (pipeline_metadata_counts (fresh_world (Some sample_raw)) sample_raw
             eq_refl eq_refl eq_refl eq_refl).
  vm_compute. reflexivity.
Defined.

(** All the worlds a run can start from, as far as the driver branches. *)
Ltac world_cases w :=
  destruct w as [[[?craw|] ?cc ?cs ?ct ?cv] [|] ?cl [?csv|] [|] ?ws ?rep ?clk [[]|] ?lg].

(** When [data/final] cannot be written, Load raises on its first file:
    the run returns [False] with no file and no report written, after
    Transform has already replaced clean_infrastructure. *)
Theorem unwritable_output_fails_at_load (w : World) (rows : list RawRow)
  (Hc : conn_open w = true) (Hi : interrupt_at w = None)
  (Hw : out_writable w = false) (Hr : input_rows w = Some rows) :
  fst (run_pipeline w) = Ret false /\
  writes (snd (run_pipeline w)) = writes w /\
  report (snd (run_pipeline w)) = report w /\
  clean_tbl (catalog (snd (run_pipeline w))) = Some (clean_infrastructure rows) /\
  log (snd (run_pipeline w)) =
    log w ++ [StageStarted Extract; StageStarted Transform; StageDone Transform;
              StageStarted Load; PipelineFailed (IOException "clean_infrastructure.parquet");
              ConnectionClosed].
Proof.
  destruct w as [[craw cc cs ct cv] conn cl csv wr ws rep clk intr lg].
  simpl in *. subst conn intr wr. unfold input_rows in Hr. simpl in Hr.
  destruct csv as [rows'|]; [injection Hr as ->|subst craw]; run_cbv;
    rewrite <- !app_assoc; repeat split; reflexivity.
Qed.

Lemma unwritable_output_fails_at_load_witness :
  out_writable readonly_world = false /\ fst (run_pipeline readonly_world) = Ret false.
Proof.
  split; [reflexivity|].
  exact (proj1 (unwritable_output_fails_at_load readonly_world sample_raw
                  eq_refl eq_refl eq_refl eq_refl)).
Defined.

(** A [KeyboardInterrupt] at the start of stage [s] escapes [run_pipeline]
    (it is no [Exception]) after the connection is closed: the stages up
    to [s] have started, nothing reports success or failure, the files of
    the completed stages stay written and no quality report is written. *)
Theorem interrupt_stops_pipeline (w : World) (rows : list RawRow) (s : Stage)
  (Hc : conn_open w = true) (Hw : out_writable w = true)
  (Hr : input_rows w = Some rows) (Hs : interrupt_at w = Some s) :
  fst (run_pipeline w) = Raise KeyboardInterrupt /\
  report (snd (run_pipeline w)) = report w /\
  writes (snd (run_pipeline w)) =
    writes w ++ firstn (match s with Views => 7 | Quality => 8 | _ => 0 end) pipeline_outputs /\
  exists new, log (snd (run_pipeline w)) = log w ++ new ++ [ConnectionClosed] /\
    filter is_stage_start new = map StageStarted (firstn (S (stage_index s)) pipeline_stages) /\
    ~ In PipelineSucceeded new /\ (forall e, ~ In (PipelineFailed e) new).
Proof.
  destruct w as [[craw cc cs ct cv] conn cl csv wr ws rep clk intr lg].
  simpl in *. subst conn intr wr. unfold input_rows in Hr. simpl in Hr.
  destruct csv as [rows'|]; [injection Hr as ->|subst craw]; destruct s; run_cbv;
    rewrite <- ?app_assoc;
    (refine (conj eq_refl (conj eq_refl (conj _ _)));
     [simpl firstn; rewrite ?app_nil_r; reflexivity|]);
    match goal with |- exists new, _ ++ ?X = _ /\ _ => exists (removelast X) end;
    (split; [reflexivity|]); simpl;
    (split; [reflexivity|split; [intuition discriminate|intros e; intuition discriminate]]).
Qed.

Lemma interrupt_stops_pipeline_witness :
  interrupt_at (interrupted_world Views) = Some Views /\
  fst (run_pipeline (interrupted_world Views)) = Raise KeyboardInterrupt.
Proof.
  split; [reflexivity|].
  exact (proj1 (interrupt_stops_pipeline (interrupted_world Views) sample_raw Views
                  eq_refl eq_refl eq_refl eq_refl)).
Defined.

Lemma closed_run (w : World) (Hc : conn_open w = false) (Hi : interrupt_at w = None) :
  fst (run_pipeline w) = Ret false /\ writes (snd (run_pipeline w)) = writes w.
Proof.
  destruct w as [[craw cc cs ct cv] conn cl csv wr ws rep clk intr lg].
  simpl in *. subst conn intr. destruct csv; run_cbv; split; reflexivity.
Qed.

(** On a closed connection with the raw CSV present, the first query of
    Extract raises: the run returns [False] having changed no table, file or
    report. *)
Theorem closed_connection_run_fails (w : World)
  (Hc : conn_open w = false) (Hi : interrupt_at w = None)
  (Hcsv : raw_csv w <> None) :
  fst (run_pipeline w) = Ret false /\
  writes (snd (run_pipeline w)) = writes w /\
  report (snd (run_pipeline w)) = report w /\
  catalog (snd (run_pipeline w)) = catalog w /\
  log (snd (run_pipeline w)) =
    log w ++ [StageStarted Extract; PipelineFailed ConnectionException;
              ConnectionClosed].
Proof.
  destruct w as [[craw cc cs ct cv] conn cl csv wr ws rep clk intr lg].
  simpl in *. subst conn intr. destruct csv; [|contradiction].
  run_cbv; rewrite <- !app_assoc; repeat split; reflexivity.
Qed.

Lemma closed_connection_run_fails_witness :
  conn_open closed_world = false /\ fst (run_pipeline closed_world) = Ret false.
Proof.
  split; [reflexivity|].
  exact (proj1 (closed_connection_run_fails closed_world eq_refl eq_refl
                  (fun H : raw_csv closed_world = None =>
                     ltac:(discriminate H)))).
Defined.

Lemma run_pipeline_keeps_interrupt (w : World) :
  interrupt_at (snd (run_pipeline w)) = interrupt_at w.
Proof. world_cases w; run_cbv; reflexivity. Qed.

Lemma run_pipeline_conn_closed (w : World) : conn_open (snd (run_pipeline w)) = false.
Proof.
  unfold run_pipeline.
  destruct ((extract ;;; transform ;;; load ;;; create_analytics_views ;;;
             run_quality_checks ;;; ret true) w) as [[b|e] w1];
    [|destruct (is_Exception e)]; reflexivity.
Qed.

(** [close] leaves the object without a connection: calling
    [run_pipeline] again on it fails and writes nothing. *)
Theorem run_pipeline_not_reusable (w : World) (Hi : interrupt_at w = None) :
  fst (run_pipeline (snd (run_pipeline w))) = Ret false /\
  writes (snd (run_pipeline (snd (run_pipeline w)))) = writes (snd (run_pipeline w)).
Proof.
  apply closed_run; [apply run_pipeline_conn_closed|].
  rewrite run_pipeline_keeps_interrupt. exact Hi.
Qed.

Lemma run_pipeline_not_reusable_witness :
  interrupt_at (fresh_world (Some sample_raw)) = None /\
  fst (run_pipeline (snd (run_pipeline (fresh_world (Some sample_raw))))) = Ret false.
Proof.
  split; [reflexivity|].
  exact (proj1 (run_pipeline_not_reusable (fresh_world (Some sample_raw)) eq_refl)).
Defined.

(** [main] opens a new connection each time: a second [main] on what the
    first left succeeds and writes every output again, while calling
    [run_pipeline] again on the closed object fails. *)
Theorem main_rerun (w : World) (rows : list RawRow)
  (Hi : interrupt_at w = None) (Hw : out_writable w = true) (Hr : input_rows w = Some rows) :
  fst (main w) = Ret true /\
  fst (run_pipeline (snd (main w))) = Ret false /\
  fst (main (snd (main w))) = Ret true /\
  writes (snd (main (snd (main w)))) = writes w ++ pipeline_outputs ++ pipeline_outputs.
Proof.
  unfold main.
  rewrite (run_pipeline_success_world (InfrastructureETL w) rows eq_refl Hi Hw Hr).
  cbn [fst snd].
  split; [reflexivity|split; [apply closed_run; reflexivity|]].
  rewrite (run_pipeline_success_world _ rows); try reflexivity.
  - cbn [fst snd writes]. rewrite app_assoc. split; reflexivity.
  - unfold input_rows in *. simpl. destruct (raw_csv w); [exact Hr|reflexivity].
Qed.

Lemma main_rerun_witness :
  out_writable (fresh_world (Some sample_raw)) = true /\
  fst (main (snd (main (fresh_world (Some sample_raw))))) = Ret true.
Proof.
  split; [reflexivity|].
  exact (proj1 (proj2 (proj2 (main_rerun (fresh_world (Some sample_raw)) sample_raw
                                 eq_refl eq_refl eq_refl)))).
Defined.

(** ** Extra: the dashboard's [load_data] *)

Lemma load_data_after_outputs (ws : list string) :
  load_data (ws ++ pipeline_outputs) = ActualData.
Proof.
  unfold load_data.
  replace (forallb _ dashboard_files) with true; [reflexivity|].
  symmetry. apply forallb_forall. intros f Hf. apply existsb_exists.
  exists f. split; [|apply String.eqb_refl].
  apply in_or_app. right.
  simpl in Hf. simpl. intuition.
Qed.

(** After a complete run the dashboard finds every file it reads and
    shows the pipeline's data, not its generated sample. *)
Theorem dashboard_reads_pipeline_output (w : World) (rows : list RawRow)
  (Hc : conn_open w = true) (Hi : interrupt_at w = None)
  (Hw : out_writable w = true) (Hr : input_rows w = Some rows) :
  load_data (writes (snd (run_pipeline w))) = ActualData.
Proof.
  rewrite (run_pipeline_success_world w rows Hc Hi Hw Hr). apply load_data_after_outputs.
Qed.

Lemma dashboard_reads_pipeline_output_witness :
  input_rows (fresh_world (Some sample_raw)) = Some sample_raw /\
  load_data (writes (snd (run_pipeline (fresh_world (Some sample_raw))))) = ActualData.
Proof.
  split; [reflexivity|].
  exact (dashboard_reads_pipeline_output (fresh_world (Some sample_raw)) sample_raw
           eq_refl eq_refl eq_refl eq_refl).
Defined.

(** ** Extra: [download_sample_infrastructure_data] *)

Lemma NoDup_map_pair (c : string) (ys : list Z) : NoDup ys -> NoDup (map (pair c) ys).
Proof.
  induction 1 as [|y ys Hy Hnd IH]; simpl; constructor; [|exact IH].
  rewrite in_map_iff. intros [y' [Hy' Hin]]. injection Hy' as ->. contradiction.
Qed.

Lemma NoDup_prod (cs : list string) (ys : list Z) :
  NoDup cs -> NoDup ys -> NoDup (list_prod cs ys).
Proof.
  intros Hcs Hys. induction Hcs as [|c cs Hc Hnd IH]; simpl; [constructor|].
  apply NoDup_app; [apply NoDup_map_pair, Hys|exact IH|].
  intros [c' y] Hin Hin'. apply in_map_iff in Hin as [y' [Hy' _]]. injection Hy' as -> _.
  apply in_prod_iff in Hin' as [Hc' _]. contradiction.
Qed.

Lemma sample_data_keys (L cs : list string) (ys : list Z) :
  map raw_key (flat_map (fun c => map (fun y => sample_record L c y) ys) cs) = list_prod cs ys.
Proof.
  rewrite list_prod_as_flat_map.
  induction cs as [|c cs IH]; simpl; [reflexivity|].
  rewrite map_app, map_map, IH. reflexivity.
Qed.

Lemma in_sample_data (L cs : list string) (ys : list Z) (r : RawRow) :
  In r (flat_map (fun c => map (fun y => sample_record L c y) ys) cs) ->
  exists c y, In c cs /\ In y ys /\ r = sample_record L c y.
Proof.
  rewrite in_flat_map. intros [c [Hc Hr]]. apply in_map_iff in Hr as [y [<- Hy]].
  exists c, y. auto.
Qed.

Lemma length_sample_data (L cs : list string) (ys : list Z) :
  List.length (flat_map (fun c => map (fun y => sample_record L c y) ys) cs) =
  List.length cs * List.length ys.
Proof.
  induction cs as [|c cs IH]; simpl; [reflexivity|].
  rewrite length_app, length_map, IH. reflexivity.
Qed.

(** The generated sample, for distinct countries and distinct years from
    2010 on, has one clean row per (country, year), passes both quality
    checks, and each row's avg_resilience is its score plus 3 (the mean of
    the offsets +5, -5, +2 and +10). *)
Theorem sample_data_passes_quality (countries : list string) (years : list Z) (now : nat)
  (Hc : NoDup countries) (Hy : NoDup years)
  (H2010 : forall y, In y years -> (2010 <= y)%Z) :
  List.length (clean_infrastructure (sample_data countries years)) =
    List.length countries * List.length years /\
  all_passed (quality_report now (clean_infrastructure (sample_data countries years))) = true /\
  (forall o, In o (clean_infrastructure (sample_data countries years)) ->
     exists s a, infrastructure_score (base o) = Some s /\ avg_resilience o = Some a /\
                 (a == s + 3)%Q).
Proof.
  unfold sample_data.
  set (raw := flat_map (fun c => map (fun y => sample_record countries c y) years) countries).
  assert (Hyf : year_filter raw = raw).
  { apply filter_keeps_all. intros r Hr.
    apply in_sample_data in Hr as [c [y [_ [Hy' ->]]]].
    apply Z.leb_le, H2010, Hy'. }
  split; [|split].
  - rewrite length_clean_infrastructure, Hyf. apply length_sample_data.
  - apply quality_passes_iff. rewrite Hyf. split.
    + unfold raw. rewrite sample_data_keys. apply NoDup_prod; assumption.
    + intros r Hr. apply in_sample_data in Hr as [c [y [_ [_ ->]]]]. discriminate.
  - intros o Ho. apply in_clean_infrastructure in Ho as [i [r [Hin ->]]].
    assert (Hr : In r raw).
    { rewrite <- Hyf. apply in_indexed_filtered. eauto. }
    apply in_sample_data in Hr as [c [y [_ [_ ->]]]].
    cbn [clean_row base avg_resilience].
    eexists; eexists; split; [reflexivity|split; [reflexivity|]].
    unfold sample_record. simpl. field.
Qed.

Lemma nodup_string_list (l : list string) : nodup string_dec l = l -> NoDup l.
Proof. intros H. rewrite <- H. apply NoDup_nodup. Qed.

Lemma nodup_Z_list (l : list Z) : nodup Z.eq_dec l = l -> NoDup l.
Proof. intros H. rewrite <- H. apply NoDup_nodup. Qed.

Lemma sample_data_passes_quality_witness :
  NoDup sample_countries /\ NoDup (range 2010 2024) /\
  List.length (clean_infrastructure download_sample_infrastructure_data) = 210.
Proof.
  assert (Hc : NoDup sample_countries) by (apply nodup_string_list; vm_compute; reflexivity).
  assert (Hy : NoDup (range 2010 2024)) by (apply nodup_Z_list; vm_compute; reflexivity).
  assert (H2010 : forall y, In y (range 2010 2024) -> (2010 <= y)%Z).
  { intros y Hin. unfold range in Hin. apply in_map_iff in Hin as [k [<- _]]. lia. }
  split; [exact Hc|split; [exact Hy|]].
  unfold download_sample_infrastructure_data.
  rewrite (proj1 (sample_data_passes_quality sample_countries (range 2010 2024) 0 Hc Hy H2010)).
  vm_compute. reflexivity.
Defined.

(** ** Extra: the dashboard's top performer *)

Lemma top_join_nonempty (summary : list SummaryRow) (clean : list CleanRow) (m : Z)
  (s : SummaryRow) (o : CleanRow) :
  In s summary -> In o clean -> s_country s = country (base o) -> year (base o) = m ->
  top_join summary clean m <> [].
Proof.
  intros Hs Ho Hc Hy Hnil.
  assert (Hin : In {| top_country := s_country s; top_avg_score := avg_score s;
                      top_score_improvement := score_improvement s;
                      latest_score := infrastructure_score (base o);
                      latest_rank := yearly_rank o |} (top_join summary clean m)).
  { apply in_flat_map. exists s. split; [exact Hs|].
    apply in_flat_map. exists o. split; [exact Ho|].
    rewrite (proj2 (String.eqb_eq _ _) Hc), (proj2 (Z.eqb_eq _ _) Hy). left; reflexivity. }
  rewrite Hnil in Hin. destruct Hin.
Qed.

(** The KPI card's top performer exists exactly when the pipeline's
    clean_infrastructure table has a row: on an input without any row of
    year >= 2010 the view is empty and [iloc[0]] raises. *)
Theorem best_performer_defined (clean : list CleanRow) :
  best_performer (top_performers (country_summary clean) clean) = None <-> clean = [].
Proof.
  split; [|intros ->; reflexivity].
  intros H. destruct clean as [|o0 rest] eqn:Ec; [reflexivity|exfalso]. rewrite <- Ec in H.
  unfold top_performers in H.
  destruct (max_year clean) as [m|] eqn:Em.
  - destruct (max_year_spec clean m Em) as [_ [o [Ho Hy]]].
    assert (Hs : In (summary_of (country (base o)) clean) (country_summary clean)).
    { apply (in_map (fun c => summary_of c clean)), nodup_In.
      now apply (in_map (fun o => country (base o))). }
    pose proof (top_join_nonempty _ _ m _ o Hs Ho eq_refl Hy) as Hne.
    pose proof (Permutation_length
                  (sort_by_perm (fun a b => score_desc_le (latest_score a) (latest_score b))
                                (top_join (country_summary clean) clean m))) as Hl.
    destruct (sort_by _ _) as [|t ts]; [|discriminate H].
    destruct (top_join (country_summary clean) clean m); [contradiction|discriminate].
  - rewrite Ec in Em. discriminate.
Qed.
